(** * cherimoya_cdk.utils: a shallow embedding and its verified properties

    The development follows [src/cherimoya_cdk/utils.py].  Python strings
    are modelled as [string], with the builtin [str.lower] as a parameter,
    Python dictionaries as insertion-ordered association lists stored in
    a heap of dictionary objects, exceptions as an explicit result type,
    and the process-wide logging registry as an explicit state. *)

From Stdlib Require Import ZArith Lia List Ascii String Bool.
From stdpp Require Import base option list gmap strings pretty.


#[local] Arguments String.append !_ _ : simpl nomatch.

(** ** Python string primitives used by the module *)

Module PyStr.

(** Lower-casing of the letters A-Z, every other character kept.  This
    is not the model of [str.lower], which lower-cases all of Unicode and
    is a parameter of [gen_name]; it is the instance the examples run
    with, and agrees with [str.lower] on text made of ASCII characters. *)
Definition lower_ascii_char (c : ascii) : ascii :=
  let n := nat_of_ascii c in
  if (65 <=? n)%nat && (n <=? 90)%nat then ascii_of_nat (n + 32) else c.

Fixpoint lower_ascii (s : string) : string :=
  match s with
  | EmptyString => EmptyString
  | String c s' => String (lower_ascii_char c) (lower_ascii s')
  end.

(** [s.startswith(p)] *)
Fixpoint startswith (s p : string) : bool :=
  match p, s with
  | EmptyString, _ => true
  | String _ _, EmptyString => false
  | String a p', String b s' => Ascii.eqb a b && startswith s' p'
  end.

(** The remaining replacement budget of [str.replace]: [None] is
    "no limit" (a negative count), [Some n] is [n] replacements left. *)
Definition budget_of (count : Z) : option nat :=
  if (count <? 0)%Z then None else Some (Z.to_nat count).

Definition may_replace (b : option nat) : bool :=
  match b with
  | None => true
  | Some O => false
  | Some (S _) => true
  end.

Definition spend (b : option nat) : option nat :=
  match b with
  | None => None
  | Some n => Some (Nat.pred n)
  end.

(** Left-to-right scan for non-overlapping occurrences of a non-empty
    [old].  [skip] counts the characters of the current occurrence that
    are still to be stepped over. *)
Fixpoint replace_scan (old new : string) (skip : nat) (b : option nat)
    (s : string) : string :=
  match s with
  | EmptyString => EmptyString
  | String c s' =>
      match skip with
      | S k => replace_scan old new k b s'
      | O =>
          if may_replace b && startswith s old
          then new +:+ replace_scan old new (Nat.pred (String.length old)) (spend b) s'
          else String c (replace_scan old new O b s')
      end
  end.

(** With an empty [old], Python inserts [new] before each character
    and once at the end, as far as the budget goes. *)
Fixpoint replace_empty (new : string) (b : option nat) (s : string) : string :=
  if may_replace b
  then new +:+ match s with
               | EmptyString => EmptyString
               | String c s' => String c (replace_empty new (spend b) s')
               end
  else s.

(** [s.replace(old, new, count)]; [s.replace(old, new)] is count [-1]. *)
Definition replace (s old new : string) (count : Z) : string :=
  match old with
  | EmptyString => replace_empty new (budget_of count) s
  | String _ _ => replace_scan old new O (budget_of count) s
  end.

(** Character-wise image of a string, used to state what a replacement
    of single characters achieves. *)
Fixpoint map_chars (f : ascii -> ascii) (s : string) : string :=
  match s with
  | EmptyString => EmptyString
  | String c s' => String (f c) (map_chars f s')
  end.

(** [s[n:]] *)
Fixpoint drop_chars (n : nat) (s : string) : string :=
  match n, s with
  | O, _ => s
  | S _, EmptyString => EmptyString
  | S k, String _ s' => drop_chars k s'
  end.

End PyStr.

(** ** Scopes and stacks

    [Stack.of(scope)] yields the governing stack of a scope.  A stack has
    a name and may carry a [stage] attribute: the attribute can be
    missing ([hasattr] is false), be [None], or hold a stage label. *)

Inductive stage_attr :=
| NoStageAttr
| StageNone
| StageLabel (label : string).

Record Stack := { stack_name : string; stage : stage_attr }.

Record Construct := { Stack_of : Stack }.

Inductive RemovalPolicy := RETAIN | DESTROY.

Definition hasattr_stage (st : Stack) : bool :=
  match stage st with
  | NoStageAttr => false
  | _ => true
  end.

Section GenName.

(** [str.lower], the builtin behind [result.lower()]: it lower-cases the
    whole string by the rules of Unicode, which may change its length and
    look at neighbouring characters. *)
Variable str_lower : string -> string.

Definition gen_name (scope : Construct) (id : string)
    (globalize all_lower clean_string : bool) : string :=
  let stack := Stack_of scope in
  let result := stack_name stack +:+ "-" +:+ id in
  let result :=
    if globalize && hasattr_stage stack then
      match stage stack with
      | StageLabel s => result +:+ ("-" +:+ s)
      | _ => result
      end
    else result in
  let result := if all_lower then str_lower result else result in
  let result :=
    if clean_string
    then PyStr.replace (PyStr.replace result "_" "-" (-1)) "." "-" (-1)
    else result in
  result.

End GenName.

(** What cleaning does to one character: underscores and periods become
    hyphens. *)
Definition hyphenate (c : ascii) : ascii :=
  if Ascii.eqb c "_" || Ascii.eqb c "." then "-"%char else c.

(** The stage suffix [gen_name] appends. *)
Definition stage_suffix (globalize : bool) (st : stage_attr) : string :=
  match globalize, st with
  | true, StageLabel s => "-" +:+ s
  | _, _ => ""
  end.

Definition stage_based_removal_policy (scope : Construct) : RemovalPolicy :=
  let stack := Stack_of scope in
  if hasattr_stage stack then
    match stage stack with
    | StageLabel s => if String.eqb s "PROD" then RETAIN else DESTROY
    | _ => DESTROY
    end
  else DESTROY.

(** ** Values, dictionaries and the heap

    Dictionaries are mutable heap objects: a value refers to one by its
    location, so that in-place updates are seen through every reference. *)

Abbreviation loc := nat.

Inductive ParamKind :=
| POSITIONAL_ONLY
| POSITIONAL_OR_KEYWORD
| VAR_POSITIONAL
| KEYWORD_ONLY
| VAR_KEYWORD.

(** What [signature(cls.__init__).parameters] exposes of a class: the
    declared parameters of its constructor, in order, with their kinds. *)
Record PyClass := {
  cls_name : string;
  init_parameters : list (string * ParamKind)
}.

(** An instance, with the outcome of [bool(obj)] (true unless the class
    defines [__bool__] or [__len__] otherwise). *)
Record PyObject := {
  obj_class : PyClass;
  obj_bool : bool
}.

Inductive pyval :=
| PNone
| PInt (z : Z)
| PStr (s : string)
| PDict (l : loc)
| PObj (o : PyObject).

(** The entries of a dictionary in insertion order; keys are pairwise
    distinct ([PyDict.ok]). *)
Abbreviation pydict := (list (string * pyval)).

Abbreviation heap := (gmap nat (list (string * pyval))).

Inductive PyExc :=
| AssertionError
| KeyError (key : string)
| TypeError
| AttributeError
| ValueError.

Inductive outcome (A : Type) :=
| Ok (a : A)
| Raise (e : PyExc).

Arguments Ok {A} a.
Arguments Raise {A} e.

Module PyDict.

(** [d.get(k)], with [None] of [option] for a missing key *)
Fixpoint get (d : pydict) (k : string) : option pyval :=
  match d with
  | [] => None
  | (k', v) :: d' => if String.eqb k' k then Some v else get d' k
  end.

(** [k in d] *)
Definition contains (d : pydict) (k : string) : bool :=
  match get d k with
  | Some _ => true
  | None => false
  end.

(** [d[k] = v]: an existing key keeps its position, a new one goes last. *)
Fixpoint setitem (d : pydict) (k : string) (v : pyval) : pydict :=
  match d with
  | [] => [(k, v)]
  | (k', v') :: d' =>
      if String.eqb k' k then (k', v) :: d' else (k', v') :: setitem d' k v
  end.

(** The entries left after deleting key [k]. *)
Fixpoint remove (d : pydict) (k : string) : pydict :=
  match d with
  | [] => []
  | (k', v) :: d' => if String.eqb k' k then d' else (k', v) :: remove d' k
  end.

(** [d.pop(k)]: the value and the remaining entries, or nothing when the
    key is missing (Python raises [KeyError] then). *)
Definition pop (d : pydict) (k : string) : option (pyval * pydict) :=
  match get d k with
  | Some v => Some (v, remove d k)
  | None => None
  end.

(** [d.update(items)], also the effect of [**items] in a dict display *)
Definition update (d : pydict) (items : pydict) : pydict :=
  fold_left (fun acc kv => setitem acc (fst kv) (snd kv)) items d.

Definition keys (d : pydict) : list string := fst <$> d.

(** Well-formedness of the representation: no key occurs twice. *)
Definition ok (d : pydict) : Prop := NoDup (keys d).

End PyDict.

(** ** State and exceptions

    A computation runs on the heap of dictionaries and either returns a
    value or raises; an exception leaves the heap as it was when raised. *)

Definition M (A : Type) : Type := heap -> heap * outcome A.

Definition ret {A} (a : A) : M A := fun h => (h, Ok a).

Definition raise {A} (e : PyExc) : M A := fun h => (h, Raise e).

Definition bind {A B} (k : A -> M B) (m : M A) : M B :=
  fun h =>
    match m h with
    | (h', Ok a) => k a h'
    | (h', Raise e) => (h', Raise e)
    end.

#[global] Instance M_ret : MRet M := @ret.
#[global] Instance M_bind : MBind M := @bind.

(** [assert b] *)
Definition py_assert (b : bool) : M unit :=
  if b then ret tt else raise AssertionError.

(** Reading the entries of the dictionary at [l].  A location that holds
    no dictionary stands for an argument that is not a [dict]: the method
    looked up on it does not exist. *)
Definition items (l : loc) : M pydict :=
  fun h =>
    match h !! l with
    | Some d => (h, Ok d)
    | None => (h, Raise AttributeError)
    end.

(** A new dictionary object holding [d] *)
Definition new_dict (d : pydict) : M loc :=
  fun h => let l := fresh (dom h) in (<[l := d]> h, Ok l).

(** [d[k] = v] on the object at [l] *)
Definition dict_setitem (l : loc) (k : string) (v : pyval) : M unit :=
  fun h =>
    match h !! l with
    | Some d => (<[l := PyDict.setitem d k v]> h, Ok tt)
    | None => (h, Raise AttributeError)
    end.

(** [d.pop(k)] on the object at [l] *)
Definition dict_pop (l : loc) (k : string) : M pyval :=
  fun h =>
    match h !! l with
    | Some d =>
        match PyDict.pop d k with
        | Some (v, d') => (<[l := d']> h, Ok v)
        | None => (h, Raise (KeyError k))
        end
    | None => (h, Raise AttributeError)
    end.

(** [bool(v)] in heap [h] *)
Definition is_truthy (h : heap) (v : pyval) : bool :=
  match v with
  | PNone => false
  | PInt z => negb (z =? 0)%Z
  | PStr s => negb (String.eqb s "")
  | PDict l =>
      match h !! l with
      | Some [] => false
      | _ => true
      end
  | PObj o => obj_bool o
  end.

Definition truthy (v : pyval) : M bool :=
  fun h => (h, Ok (is_truthy h v)).

(** [[f(x) for x in xs]] *)
Fixpoint list_comp {A B} (f : A -> M B) (xs : list A) : M (list B) :=
  match xs with
  | [] => ret []
  | x :: xs' => y ← f x; ys ← list_comp f xs'; ret (y :: ys)
  end.

(** [for x in xs: f(x)] *)
Fixpoint for_each {A} (f : A -> M unit) (xs : list A) : M unit :=
  match xs with
  | [] => ret tt
  | x :: xs' => f x;; for_each f xs'
  end.

(** ** Dictionary helpers of the module *)

(** [signature] of the constructor of a built-in type: every such
    [__init__] is a slot wrapper with parameters [(self, /, *args, **kwargs)]. *)
Definition builtin_class (name : string) : PyClass :=
  {| cls_name := name;
     init_parameters :=
       [("self", POSITIONAL_ONLY); ("args", VAR_POSITIONAL); ("kwargs", VAR_KEYWORD)] |}.

(** [type(v)] *)
Definition type_of (v : pyval) : PyClass :=
  match v with
  | PNone => builtin_class "NoneType"
  | PInt _ => builtin_class "int"
  | PStr _ => builtin_class "str"
  | PDict _ => builtin_class "dict"
  | PObj o => obj_class o
  end.

(** [parameters.get(k)] *)
Fixpoint parameters_get (ps : list (string * ParamKind)) (k : string)
    : option ParamKind :=
  match ps with
  | [] => None
  | (n, kind) :: ps' => if String.eqb n k then Some kind else parameters_get ps' k
  end.

(** [parameters.get(k) and parameters[k].kind == parameters[k].KEYWORD_ONLY] *)
Definition is_keyword_only (ps : list (string * ParamKind)) (k : string) : bool :=
  match parameters_get ps k with
  | Some KEYWORD_ONLY => true
  | _ => false
  end.

(** The entries a [**v] unpacking contributes: those of the dictionary
    [v] refers to; anything else is not a mapping. *)
Definition unpack_mapping (v : pyval) : M pydict :=
  match v with
  | PDict l =>
      fun h =>
        match h !! l with
        | Some d => (h, Ok d)
        | None => (h, Raise TypeError)
        end
  | _ => raise TypeError
  end.

(** [get_params].  The dictionaries that live only inside the call (the
    [{}] of [kwargs or {}], the inner comprehension) are kept as values;
    the dictionary that is returned is allocated. *)
Definition get_params (allvars : loc) : M loc :=
  d ← items allvars;
  let self := default PNone (PyDict.get d "self") in
  t ← truthy self;
  py_assert t;;
  py_assert (PyDict.contains d "kwargs");;
  let kwargs := default PNone (PyDict.get d "kwargs") in
  t ← truthy kwargs;
  let cls := type_of self in
  let parameters := init_parameters cls in
  let declared :=
    PyDict.update []
      (filter (fun kv : string * pyval => is_keyword_only parameters (fst kv) = true) d) in
  extra ← (if (t : bool) then unpack_mapping kwargs else ret []);
  new_dict (PyDict.update (PyDict.update [] declared) extra).

(** The class of the documented example:
    [def __init__(self, a, b, *, c=3, d=4, **kwargs)]. *)
Definition foo : PyClass :=
  {| cls_name := "foo";
     init_parameters :=
       [("self", POSITIONAL_OR_KEYWORD); ("a", POSITIONAL_OR_KEYWORD);
        ("b", POSITIONAL_OR_KEYWORD); ("c", KEYWORD_ONLY); ("d", KEYWORD_ONLY);
        ("kwargs", VAR_KEYWORD)] |}.

(** [locals()] inside [foo("a", "b", d="DDD", foobar="baz")]: the
    snapshot is the dictionary at location 1, its [kwargs] entry refers to
    the catch-all dictionary at location 0. *)
Definition example_locals : heap :=
  <[1 := [("self", PObj {| obj_class := foo; obj_bool := true |});
          ("a", PStr "a"); ("b", PStr "b"); ("c", PInt 3); ("d", PStr "DDD");
          ("kwargs", PDict 0)]]>
    {[ 0 := [("foobar", PStr "baz")] ]}.

(** A container class, [def __init__(self, *, c=3, **kwargs)] with a
    [__len__]: an instance that holds nothing is false as a boolean. *)
Definition bag : PyClass :=
  {| cls_name := "bag";
     init_parameters :=
       [("self", POSITIONAL_OR_KEYWORD); ("c", KEYWORD_ONLY); ("kwargs", VAR_KEYWORD)] |}.

(** [locals()] inside [bag()] for an empty bag: the receiver is present
    but false as a boolean, the catch-all dictionary (location 0) is empty. *)
Definition falsy_receiver_locals : heap :=
  <[1 := [("self", PObj {| obj_class := bag; obj_bool := false |});
          ("c", PInt 3); ("kwargs", PDict 0)]]>
    {[ 0 := [] ]}.

(** [filter_kwargs]: the comprehension fills a new dictionary entry by
    entry, in the iteration order of [kwargs.items()]. *)
Definition filter_kwargs (kwargs : loc) (filter : string) : M loc :=
  entries ← items kwargs;
  out ← new_dict [];
  for_each
    (fun kv : string * pyval =>
       if PyStr.startswith (fst kv) filter
       then dict_setitem out (PyStr.replace (fst kv) filter "" 1) (snd kv)
       else ret tt)
    entries;;
  ret out.

(** The entries of [d] whose key starts with [p], each key cut by the
    length of [p]; the reference [filter_kwargs] is compared with. *)
Definition strip_prefix (p : string) (d : pydict) : pydict :=
  (fun kv : string * pyval => (PyStr.drop_chars (String.length p) kv.1, kv.2))
    <$> filter (fun kv : string * pyval => PyStr.startswith kv.1 p = true) d.

(** One round of the comprehension of [filter_kwargs], on the entries
    collected so far. *)
Definition filter_step (p : string) (acc : pydict) (kv : string * pyval) : pydict :=
  if PyStr.startswith kv.1 p
  then PyDict.setitem acc (PyStr.replace kv.1 p "" 1) kv.2
  else acc.

(** The dictionary of the documented examples of [filter_kwargs]. *)
Definition example_kwargs : pydict :=
  [("a_b", PInt 1); ("a_c", PInt 2); ("b_abc", PStr "x")].

(** The entries left once the keys [ks] are deleted one after the other. *)
Definition remove_all (d : pydict) (ks : list string) : pydict :=
  fold_left PyDict.remove ks d.

(** The key at position [i] of [ps] is missing when its turn comes: it
    was never in [d], or an earlier element of [ps] has removed it. *)
Definition absent_at (d : pydict) (ps : list string) (i : nat) : Prop :=
  exists k, ps !! i = Some k /\ (k ∉ PyDict.keys d \/ k ∈ take i ps).

(** [remove_params]: the list of popped values is built and dropped. *)
Definition remove_params (kwargs : loc) (params : list string) : M unit :=
  list_comp (dict_pop kwargs) params;; ret tt.

(** ** The logging registry

    [logging.getLogger] hands out one logger object per name from a
    process-wide registry; the registry, the root logger and the calls to
    [logger.info] are the state [setup_logger] runs on. *)

Module Logging.

(** A [StreamHandler(sys.stderr)] with its name tag, level and format. *)
Record Handler := {
  handler_name : option string;
  handler_level : Z;
  handler_format : string
}.

Record Logger := {
  level : Z;
  handlers : list Handler
}.

(** The identity of a logger object: the root logger or the one
    registered under a name. *)
Inductive logger_ref :=
| Root
| Named (name : string).

#[global] Instance logger_ref_eq_dec : EqDecision logger_ref.
Proof. solve_decision. Defined.

Record state := {
  root : Logger;
  loggerDict : gmap string Logger;
  info_calls : list (logger_ref * string)
}.

Definition NOTSET : Z := 0.
Definition WARNING : Z := 30.

(** A logger as [Logger(name)] creates it. *)
Definition new_logger : Logger := {| level := NOTSET; handlers := [] |}.

(** The registry of a process that has not touched logging yet. *)
Definition initial : state :=
  {| root := {| level := WARNING; handlers := [] |};
     loggerDict := ∅;
     info_calls := [] |}.

(** [logging._nameToLevel] *)
Definition nameToLevel (s : string) : option Z :=
  if String.eqb s "CRITICAL" then Some 50%Z
  else if String.eqb s "FATAL" then Some 50%Z
  else if String.eqb s "ERROR" then Some 40%Z
  else if String.eqb s "WARN" then Some 30%Z
  else if String.eqb s "WARNING" then Some 30%Z
  else if String.eqb s "INFO" then Some 20%Z
  else if String.eqb s "DEBUG" then Some 10%Z
  else if String.eqb s "NOTSET" then Some 0%Z
  else None.

(** [logging._levelToName] *)
Definition levelToName (n : Z) : option string :=
  if (n =? 50)%Z then Some "CRITICAL"
  else if (n =? 40)%Z then Some "ERROR"
  else if (n =? 30)%Z then Some "WARNING"
  else if (n =? 20)%Z then Some "INFO"
  else if (n =? 10)%Z then Some "DEBUG"
  else if (n =? 0)%Z then Some "NOTSET"
  else None.

(** The [level] variable holds an [int] or a [str]. *)
Inductive level_value :=
| IntLevel (n : Z)
| StrLevel (s : string).

(** [logging.getLevelName] *)
Definition getLevelName (lv : level_value) : level_value :=
  match lv with
  | IntLevel n =>
      match levelToName n with
      | Some s => StrLevel s
      | None => StrLevel ("Level " +:+ pretty n)
      end
  | StrLevel s =>
      match nameToLevel s with
      | Some n => IntLevel n
      | None => StrLevel ("Level " +:+ s)
      end
  end.

(** [logging._checkLevel], behind every [setLevel] *)
Definition checkLevel (lv : level_value) : outcome Z :=
  match lv with
  | IntLevel n => Ok n
  | StrLevel s =>
      match nameToLevel s with
      | Some n => Ok n
      | None => Raise ValueError
      end
  end.

(** [str(level)] inside an f-string *)
Definition level_text (lv : level_value) : string :=
  match lv with
  | IntLevel n => pretty n
  | StrLevel s => s
  end.

(** [str(name)] inside an f-string *)
Definition name_text (name : option string) : string :=
  match name with
  | None => "None"
  | Some s => s
  end.

(** [h.name == name] *)
Definition name_eqb (a b : option string) : bool :=
  match a, b with
  | None, None => true
  | Some x, Some y => String.eqb x y
  | _, _ => false
  end.

(** [logging.getLogger(name)]: the root logger for no name, an empty
    name or the root's own name; otherwise the registered logger, created
    on first use. *)
Definition getLogger (name : option string) (σ : state) : state * logger_ref :=
  match name with
  | None => (σ, Root)
  | Some n =>
      if String.eqb n "" || String.eqb n "root" then (σ, Root)
      else
        match loggerDict σ !! n with
        | Some _ => (σ, Named n)
        | None =>
            ({| root := root σ;
                loggerDict := <[n := new_logger]> (loggerDict σ);
                info_calls := info_calls σ |}, Named n)
        end
  end.

(** The logger object behind a reference. *)
Definition deref (σ : state) (r : logger_ref) : Logger :=
  match r with
  | Root => root σ
  | Named n => default new_logger (loggerDict σ !! n)
  end.

Definition store (σ : state) (r : logger_ref) (lg : Logger) : state :=
  match r with
  | Root =>
      {| root := lg; loggerDict := loggerDict σ; info_calls := info_calls σ |}
  | Named n =>
      {| root := root σ;
         loggerDict := <[n := lg]> (loggerDict σ);
         info_calls := info_calls σ |}
  end.

(** [logger.setLevel(n)] once the level is checked *)
Definition setLevel (r : logger_ref) (n : Z) (σ : state) : state :=
  store σ r {| level := n; handlers := handlers (deref σ r) |}.

(** [logger.addHandler(h)] for a handler object that is not attached yet *)
Definition addHandler (r : logger_ref) (h : Handler) (σ : state) : state :=
  store σ r {| level := level (deref σ r); handlers := handlers (deref σ r) ++ [h] |}.

(** [logger.info(msg)] *)
Definition info (r : logger_ref) (msg : string) (σ : state) : state :=
  {| root := root σ;
     loggerDict := loggerDict σ;
     info_calls := info_calls σ ++ [(r, msg)] |}.

Definition DEFAULT_LOGLEVEL : string := "INFO".

Definition default_format : string :=
  "%(asctime)s | %(levelname)-8s | %(message)s".

(** The logger object a name denotes. *)
Definition logger_of (name : option string) : logger_ref :=
  match name with
  | None => Root
  | Some n => if String.eqb n "" || String.eqb n "root" then Root else Named n
  end.

(** [level] after the [if level is None] default:
    [getLevelName(os.environ.get("LOGLEVEL", _DEFAULT_LOGLEVEL))]. *)
Definition resolve_level (environ_LOGLEVEL : option string) (level : option Z)
    : level_value :=
  match level with
  | None => getLevelName (StrLevel (default DEFAULT_LOGLEVEL environ_LOGLEVEL))
  | Some n => IntLevel n
  end.

(** [formatstr or "%(asctime)s | ..."] *)
Definition format_or_default (formatstr : option string) : string :=
  match formatstr with
  | None => default_format
  | Some s => if String.eqb s "" then default_format else s
  end.

Section SetupLogger.

(** [logging.Formatter(fmt)] checks the format string and raises
    [ValueError] on a string it rejects; the check belongs to the logging
    library. *)
Variable format_valid : string -> bool.

(** [setup_logger]; [environ_LOGLEVEL] is [os.environ.get("LOGLEVEL")] at
    the time of the call. *)
Definition setup_logger (environ_LOGLEVEL : option string)
    (name : option string) (level : option Z) (formatstr : option string)
    (σ : state) : state * outcome logger_ref :=
  let '(σ, logger) := getLogger name σ in
  let level := resolve_level environ_LOGLEVEL level in
  if existsb (fun h => name_eqb (handler_name h) name) (handlers (deref σ logger))
  then
    let σ := info logger ("Handler " +:+ name_text name +:+ " already initialized") σ in
    (σ, Ok logger)
  else
    let formatstr := format_or_default formatstr in
    match checkLevel level with
    | Raise e => (σ, Raise e)
    | Ok n =>
        let σ := setLevel logger n σ in
        if format_valid formatstr then
          let handler :=
            {| handler_name := name; handler_level := n; handler_format := formatstr |} in
          let σ := addHandler logger handler σ in
          let level :=
            match level with
            | IntLevel _ => getLevelName level
            | StrLevel _ => level
            end in
          let σ :=
            info logger
              ("Configured logger '" +:+ name_text name +:+ "' with level "
                 +:+ level_text level +:+ ".") σ in
          (σ, Ok logger)
        else (σ, Raise ValueError)
    end.

(** A run of calls for one logger name, each with its own environment,
    level and format; the run stops at the first call that raises. *)
Fixpoint setup_logger_calls (name : option string)
    (calls : list (option string * option Z * option string))
    (σ : state) : state * outcome (list logger_ref) :=
  match calls with
  | [] => (σ, Ok [])
  | (env, lvl, fmt) :: calls' =>
      match setup_logger env name lvl fmt σ with
      | (σ', Ok r) =>
          match setup_logger_calls name calls' σ' with
          | (σ'', Ok rs) => (σ'', Ok (r :: rs))
          | (σ'', Raise e) => (σ'', Raise e)
          end
      | (σ', Raise e) => (σ', Raise e)
      end
  end.

End SetupLogger.

(** The handlers of a logger that carry a given name tag. *)
Definition handlers_named (name : option string) (lg : Logger) : list Handler :=
  List.filter (fun h => name_eqb (handler_name h) name) (handlers lg).

(** At most one handler with a given name on every logger. *)
Definition one_handler_per_name (σ : state) : Prop :=
  forall (r : logger_ref) (name : option string),
    (length (handlers_named name (deref σ r)) <= 1)%nat.

End Logging.

(** ** Reference notions for further properties *)

(** The ASCII capital letters. *)
Definition is_upper (c : ascii) : bool :=
  let n := nat_of_ascii c in (65 <=? n)%nat && (n <=? 90)%nat.

(** The entries of [d] whose key is not listed in [ps], in their order. *)
Definition without_keys (ps : list string) (d : pydict) : pydict :=
  filter (fun kv : string * pyval => kv.1 ∉ ps) d.

(** The keys [ks], each with [p] put in front. *)
Definition with_prefix (p : string) (ks : list string) : list string :=
  (fun k => p +:+ k) <$> ks.

(** The handler a first configuration attaches. *)
Definition handler_for (name : option string) (n : Z) (formatstr : option string)
    : Logging.Handler :=
  {| Logging.handler_name := name;
     Logging.handler_level := n;
     Logging.handler_format := Logging.format_or_default formatstr |}.

(** * Properties *)

(** ** Strings *)

Module PyStrFacts.
Import PyStr.

Lemma append_empty_r (s : string) : s +:+ "" = s.
Proof. induction s as [|c s IH]; simpl; [reflexivity | now rewrite IH]. Qed.

Lemma append_assoc (a b c : string) : (a +:+ b) +:+ c = a +:+ (b +:+ c).
Proof. induction a as [|x a IH]; simpl; [reflexivity | now rewrite IH]. Qed.

Lemma startswith_empty (s : string) : startswith s "" = true.
Proof. now destruct s. Qed.

(** Replacing every occurrence of one character by another is the
    character-wise substitution. *)
Lemma replace_char_all (a b : ascii) (s : string) :
  replace s (String a "") (String b "") (-1)
  = map_chars (fun c => if Ascii.eqb a c then b else c) s.
Proof.
  unfold replace, budget_of. simpl.
  induction s as [|c s IH]; simpl; [reflexivity |].
  rewrite startswith_empty, andb_true_r.
  destruct (Ascii.eqb a c); simpl; now rewrite IH.
Qed.

Lemma map_chars_compose (f g : ascii -> ascii) (s : string) :
  map_chars g (map_chars f s) = map_chars (fun c => g (f c)) s.
Proof. induction s as [|c s IH]; simpl; congruence. Qed.

Lemma map_chars_ext (f g : ascii -> ascii) (s : string) :
  (forall c, f c = g c) -> map_chars f s = map_chars g s.
Proof. intros E. induction s as [|c s IH]; simpl; congruence. Qed.

Lemma clean_is_hyphenate (s : string) :
  replace (replace s "_" "-" (-1)) "." "-" (-1) = map_chars hyphenate s.
Proof.
  rewrite !replace_char_all, map_chars_compose.
  apply map_chars_ext. intros c. unfold hyphenate.
  rewrite (Ascii.eqb_sym c "_"), (Ascii.eqb_sym c ".").
  destruct (Ascii.eqb "_" c) eqn:E1; simpl; [reflexivity |].
  reflexivity.
Qed.

(** A key that starts with the prefix has its first occurrence of the
    prefix right at the front: removing it once drops the prefix. *)
Lemma startswith_split (s p : string) :
  startswith s p = true -> s = p +:+ drop_chars (String.length p) s.
Proof.
  revert s. induction p as [|a p IH]; intros s H; simpl in *; [reflexivity |].
  destruct s as [|b s]; [discriminate |].
  apply andb_true_iff in H as [Hab Hs].
  apply Ascii.eqb_eq in Hab. subst b. f_equal. now apply IH.
Qed.

Lemma replace_scan_spent (old new : string) (s : string) :
  replace_scan old new O (Some O) s = s.
Proof. induction s as [|c s IH]; simpl; congruence. Qed.

Lemma replace_scan_skip (old new t : string) (p : string) :
  replace_scan old new (String.length p) (Some O) (p +:+ t) = t.
Proof.
  induction p as [|a p IH]; simpl; [apply replace_scan_spent | exact IH].
Qed.

Lemma replace_empty_spent (new s : string) : replace_empty new (Some O) s = s.
Proof. now destruct s. Qed.

Lemma replace_prefix_once (s p : string) :
  startswith s p = true ->
  replace s p "" 1 = drop_chars (String.length p) s.
Proof.
  intros H. destruct p as [|a p].
  - unfold replace, budget_of. simpl Z.ltb. cbv iota.
    change (Z.to_nat 1) with 1%nat.
    destruct s as [|b s]; [reflexivity |].
    simpl. now rewrite replace_empty_spent.
  - pose proof (startswith_split _ _ H) as E.
    unfold replace, budget_of. simpl Z.ltb. cbv iota.
    destruct s as [|b s]; [discriminate |].
    change (Z.to_nat 1) with 1%nat.
    simpl replace_scan. simpl in H. rewrite H. simpl.
    apply andb_true_iff in H as [Hab Hs].
    rewrite (startswith_split _ _ Hs) at 1.
    rewrite replace_scan_skip. reflexivity.
Qed.

End PyStrFacts.

(** ** Naming and removal policy *)

(** C3: [gen_name] returns ["S-id"] for stack name [S] and identifier
    [id]; with [globalize] and a non-null [stage] attribute ["-{stage}"] is
    appended, and a missing or null attribute appends nothing and does not
    fail; [all_lower] lower-cases the whole result with [str.lower];
    [clean_string] turns every underscore and period into a hyphen, and
    does so on the lower-cased text when both are set. *)
Theorem gen_name_format (str_lower : string -> string) (scope : Construct)
    (id : string) (globalize all_lower clean_string : bool) :
  let S := stack_name (Stack_of scope) in
  let named := S +:+ "-" +:+ id +:+ stage_suffix globalize (stage (Stack_of scope)) in
  let folded := if all_lower then str_lower named else named in
  gen_name str_lower scope id globalize all_lower clean_string
  = (if clean_string then PyStr.map_chars hyphenate folded else folded)
  /\ gen_name str_lower scope id globalize true true
     = PyStr.map_chars hyphenate (str_lower named)
  /\ gen_name str_lower scope id false false false = S +:+ "-" +:+ id
  /\ gen_name str_lower
       {| Stack_of := {| stack_name := S; stage := NoStageAttr |} |}
       id globalize false false = S +:+ "-" +:+ id
  /\ gen_name str_lower
       {| Stack_of := {| stack_name := S; stage := StageNone |} |}
       id globalize false false = S +:+ "-" +:+ id.
Proof.
  intros S named folded.
  assert (Hnamed :
    (if globalize && hasattr_stage (Stack_of scope)
     then match stage (Stack_of scope) with
          | StageLabel s => (S +:+ "-" +:+ id) +:+ ("-" +:+ s)
          | _ => S +:+ "-" +:+ id
          end
     else S +:+ "-" +:+ id) = named).
  { subst named. unfold hasattr_stage, stage_suffix.
    destruct globalize, (stage (Stack_of scope)); simpl;
      rewrite ?PyStrFacts.append_assoc; simpl;
      rewrite ?PyStrFacts.append_empty_r; reflexivity. }
  split; [| split; [| split; [| split]]].
  - unfold gen_name. fold S. rewrite Hnamed. subst folded.
    destruct clean_string; [| reflexivity].
    apply PyStrFacts.clean_is_hyphenate.
  - unfold gen_name. fold S. rewrite Hnamed.
    apply PyStrFacts.clean_is_hyphenate.
  - unfold gen_name. reflexivity.
  - unfold gen_name, hasattr_stage. simpl. now rewrite andb_false_r.
  - unfold gen_name, hasattr_stage. simpl. now destruct globalize.
Qed.

Example gen_name_globalized :
  gen_name PyStr.lower_ascii
    {| Stack_of := {| stack_name := "S"; stage := StageLabel "dev" |} |}
    "id" true false false = "S-id-dev".
Proof. reflexivity. Qed.

Example gen_name_lowered_then_cleaned :
  gen_name PyStr.lower_ascii
    {| Stack_of := {| stack_name := "My_Stack"; stage := StageLabel "Dev.1" |} |}
    "Bucket" true true true = "my-stack-bucket-dev-1".
Proof. reflexivity. Qed.

(** C8: [stage_based_removal_policy] returns RETAIN exactly when the
    stack has a [stage] attribute equal to ["PROD"], and DESTROY in every
    other case, a missing attribute included. *)
Theorem removal_policy_retain_iff_prod (scope : Construct) :
  (stage_based_removal_policy scope = RETAIN
   <-> stage (Stack_of scope) = StageLabel "PROD")
  /\ (stage_based_removal_policy scope = DESTROY
      <-> stage (Stack_of scope) <> StageLabel "PROD")
  /\ stage_based_removal_policy
       {| Stack_of := {| stack_name := stack_name (Stack_of scope);
                         stage := NoStageAttr |} |} = DESTROY.
Proof.
  unfold stage_based_removal_policy, hasattr_stage.
  destruct (stage (Stack_of scope)) as [| |s]; simpl.
  - repeat split; try discriminate; try reflexivity; congruence.
  - repeat split; try discriminate; try reflexivity; congruence.
  - destruct (String.eqb s "PROD") eqn:E.
    + apply String.eqb_eq in E. subst s.
      repeat split; try reflexivity; try congruence; discriminate.
    + apply String.eqb_neq in E.
      repeat split; try reflexivity; try congruence; try discriminate.
Qed.

(** ** Dictionaries *)

Module PyDictFacts.
Import PyDict.

Lemma get_None (d : pydict) (k : string) : get d k = None <-> k ∉ keys d.
Proof.
  induction d as [|[k' v] d IH]; simpl.
  - split; [intros _; apply not_elem_of_nil | reflexivity].
  - rewrite not_elem_of_cons. destruct (String.eqb k' k) eqn:E.
    + apply String.eqb_eq in E. split; [discriminate | intros [? _]; congruence].
    + apply String.eqb_neq in E. rewrite IH. split; [intros ?; split; congruence | tauto].
Qed.

Lemma get_Some_elem (d : pydict) (k : string) (v : pyval) :
  get d k = Some v -> (k, v) ∈ d.
Proof.
  induction d as [|[k' v'] d IH]; simpl; [discriminate |].
  destruct (String.eqb k' k) eqn:E.
  - apply String.eqb_eq in E. intros [= ->]. subst. apply elem_of_cons; now left.
  - intros H. apply elem_of_cons; right; auto.
Qed.

Lemma elem_get (d : pydict) (k : string) (v : pyval) :
  ok d -> (k, v) ∈ d -> get d k = Some v.
Proof.
  unfold ok. induction d as [|[k' v'] d IH]; simpl; intros Hok Hin.
  - now apply elem_of_nil in Hin.
  - apply NoDup_cons in Hok as [Hk Hok]. apply elem_of_cons in Hin as [E | Hin].
    + injection E as -> ->. now rewrite String.eqb_refl.
    + destruct (String.eqb k' k) eqn:E; [| auto].
      apply String.eqb_eq in E. subst k'. exfalso. apply Hk.
      apply list_elem_of_fmap. exists (k, v). auto.
Qed.

Lemma contains_true (d : pydict) (k : string) :
  contains d k = true <-> k ∈ keys d.
Proof.
  unfold contains. pose proof (get_None d k) as H.
  destruct (get d k).
  - split; [intros _ | reflexivity].
    destruct (decide (k ∈ keys d)) as [|n]; [assumption |].
    apply H in n. discriminate.
  - split; [discriminate |]. intros Hin. exfalso. now apply H.
Qed.

Lemma setitem_fresh (d : pydict) (k : string) (v : pyval) :
  get d k = None -> setitem d k v = d ++ [(k, v)].
Proof.
  induction d as [|[k' v'] d IH]; simpl; [reflexivity |].
  destruct (String.eqb k' k); [discriminate |]. intros H. now rewrite IH.
Qed.

Lemma get_setitem (d : pydict) (k k' : string) (v : pyval) :
  get (setitem d k v) k' = if String.eqb k k' then Some v else get d k'.
Proof.
  induction d as [|[k0 v0] d IH]; simpl; [reflexivity |].
  destruct (String.eqb k0 k) eqn:E; simpl.
  - apply String.eqb_eq in E. subst k0. now destruct (String.eqb k k').
  - rewrite IH. destruct (String.eqb k0 k') eqn:E'; [| reflexivity].
    apply String.eqb_eq in E'. subst k0. now rewrite String.eqb_sym, E.
Qed.

Lemma keys_setitem_present (d : pydict) (k : string) (v : pyval) :
  k ∈ keys d -> keys (setitem d k v) = keys d.
Proof.
  unfold keys. induction d as [|[k0 v0] d IH]; simpl; intros H.
  - now apply elem_of_nil in H.
  - destruct (String.eqb k0 k) eqn:E; simpl; [reflexivity |].
    apply String.eqb_neq in E. apply elem_of_cons in H as [-> | H]; [congruence |].
    f_equal. now apply IH.
Qed.

Lemma ok_setitem (d : pydict) (k : string) (v : pyval) :
  ok d -> ok (setitem d k v).
Proof.
  intros Hok. destruct (decide (k ∈ keys d)) as [Hin | Hout].
  - unfold ok. now rewrite keys_setitem_present.
  - rewrite setitem_fresh by now apply get_None.
    unfold ok, keys in *. rewrite fmap_app. apply NoDup_app. simpl.
    repeat split; [assumption | | apply NoDup_singleton].
    intros x Hx Hx'. apply list_elem_of_singleton in Hx'. now subst.
Qed.

Lemma ok_update (d entries : pydict) : ok d -> ok (update d entries).
Proof.
  unfold update. revert d.
  induction entries as [|[k v] entries IH]; intros d Hok; simpl; [assumption |].
  apply IH. now apply ok_setitem.
Qed.

(** Updating with well-formed entries: the new entries win, the others
    stay. *)
Lemma get_update (d entries : pydict) (k : string) :
  ok entries ->
  get (update d entries) k
  = match get entries k with Some v => Some v | None => get d k end.
Proof.
  unfold update. revert d.
  induction entries as [|[k0 v0] entries IH]; intros d Hok; simpl; [reflexivity |].
  unfold ok in Hok. simpl in Hok. apply NoDup_cons in Hok as [Hk0 Hok].
  rewrite IH by assumption. rewrite get_setitem.
  destruct (String.eqb k0 k) eqn:E; [| reflexivity].
  apply String.eqb_eq in E. subst k0.
  apply get_None in Hk0. now rewrite Hk0.
Qed.

Lemma update_nil_ok (entries : pydict) : ok entries -> update [] entries = entries.
Proof.
  intros Hok. unfold update.
  enough (G : forall acc, ok (acc ++ entries) ->
            fold_left (fun a kv => setitem a kv.1 kv.2) entries acc = acc ++ entries).
  { apply (G []). assumption. }
  clear Hok. induction entries as [|[k v] entries IH]; intros acc Hok; simpl.
  - now rewrite app_nil_r.
  - assert (Hk : get acc k = None).
    { apply get_None. unfold ok, keys in Hok. rewrite fmap_app in Hok.
      apply NoDup_app in Hok as (_ & Hd & _). intros Hin.
      apply (Hd k Hin). simpl. apply elem_of_cons. now left. }
    rewrite setitem_fresh by assumption.
    rewrite IH; rewrite <- app_assoc; [reflexivity | exact Hok].
Qed.

Lemma ok_filter (P : string * pyval -> Prop) `{!forall x, Decision (P x)} (d : pydict) :
  ok d -> ok (filter P d).
Proof.
  unfold ok, keys. induction d as [|[k v] d IH]; intros Hok; [constructor |].
  simpl in Hok. apply NoDup_cons in Hok as [Hk Hok].
  rewrite filter_cons. destruct (decide (P (k, v))); [| auto].
  simpl. apply NoDup_cons. split; [| auto].
  intros Hin. apply Hk. apply list_elem_of_fmap in Hin as ([k' v'] & -> & Hin).
  apply list_elem_of_filter in Hin as [_ Hin].
  apply list_elem_of_fmap. exists (k', v'). auto.
Qed.

(** Filtering on the key: the entry of [k] survives when [k] passes. *)
Lemma get_filter_key (Q : string -> bool) (d : pydict) (k : string) :
  get (filter (fun kv : string * pyval => Q kv.1 = true) d) k
  = if Q k then get d k else None.
Proof.
  induction d as [|[k0 v0] d IH]; simpl.
  - now destruct (Q k).
  - rewrite filter_cons. simpl. destruct (decide (Q k0 = true)) as [Hq | Hq]; simpl.
    + destruct (String.eqb k0 k) eqn:E; [| exact IH].
      apply String.eqb_eq in E. subst k0. now rewrite Hq.
    + rewrite IH. destruct (String.eqb k0 k) eqn:E; [| reflexivity].
      apply String.eqb_eq in E. subst k0.
      destruct (Q k); [congruence | reflexivity].
Qed.

Lemma get_remove (d : pydict) (k k' : string) :
  ok d -> get (remove d k) k' = if String.eqb k k' then None else get d k'.
Proof.
  unfold ok, keys. induction d as [|[k0 v0] d IH]; simpl; intros Hok.
  - now destruct (String.eqb k k').
  - apply NoDup_cons in Hok as [Hk0 Hok].
    destruct (String.eqb k0 k) eqn:E.
    + apply String.eqb_eq in E. subst k0.
      destruct (String.eqb k k') eqn:E'; [| reflexivity].
      apply String.eqb_eq in E'. subst k'. now apply get_None.
    + simpl. rewrite IH by assumption.
      destruct (String.eqb k0 k') eqn:E'; [| reflexivity].
      apply String.eqb_eq in E'. subst k0. now rewrite String.eqb_sym, E.
Qed.

Lemma keys_remove_subseteq (d : pydict) (k x : string) :
  x ∈ keys (remove d k) -> x ∈ keys d.
Proof.
  unfold keys. induction d as [|[k0 v0] d IH]; simpl; [auto |].
  destruct (String.eqb k0 k); simpl; rewrite !elem_of_cons; tauto.
Qed.

Lemma ok_remove (d : pydict) (k : string) : ok d -> ok (remove d k).
Proof.
  unfold ok. induction d as [|[k0 v0] d IH]; simpl; intros Hok; [assumption |].
  apply NoDup_cons in Hok as [Hk0 Hok].
  destruct (String.eqb k0 k); [assumption |].
  simpl. apply NoDup_cons. split; [| auto].
  intros Hin. apply Hk0. eapply keys_remove_subseteq, Hin.
Qed.

End PyDictFacts.

(** ** Heap computations *)

Module HeapFacts.
Import PyDict PyDictFacts.

Ltac unfold_M := unfold mbind, M_bind, bind, ret, raise, py_assert.

Lemma for_each_setitem (p : string) (out : loc) (entries : pydict) :
  forall (h : heap) (acc : pydict),
    h !! out = Some acc ->
    for_each
      (fun kv : string * pyval =>
         if PyStr.startswith kv.1 p
         then dict_setitem out (PyStr.replace kv.1 p "" 1) kv.2
         else ret tt) entries h
    = (<[out := fold_left (filter_step p) entries acc]> h, Ok tt).
Proof.
  induction entries as [|[k v] entries IH]; intros h acc Hacc; simpl.
  - unfold ret. now rewrite insert_id.
  - unfold_M. unfold filter_step at 2. simpl.
    destruct (PyStr.startswith k p).
    + unfold dict_setitem. rewrite Hacc.
      rewrite (IH _ (setitem acc (PyStr.replace k p "" 1) v))
        by apply lookup_insert_eq.
      now rewrite insert_insert_eq.
    + apply IH. exact Hacc.
Qed.

Lemma strip_prefix_cons (p : string) (k : string) (v : pyval) (d : pydict) :
  strip_prefix p ((k, v) :: d)
  = if PyStr.startswith k p
    then (PyStr.drop_chars (String.length p) k, v) :: strip_prefix p d
    else strip_prefix p d.
Proof.
  unfold strip_prefix. rewrite filter_cons. simpl.
  destruct (PyStr.startswith k p); simpl.
  - destruct (decide (true = true)); [reflexivity | congruence].
  - destruct (decide (false = true)); [discriminate | reflexivity].
Qed.

Lemma fold_filter_step (p : string) (entries : pydict) :
  forall acc : pydict,
    ok (acc ++ strip_prefix p entries) ->
    fold_left (filter_step p) entries acc = acc ++ strip_prefix p entries.
Proof.
  induction entries as [|[k v] entries IH]; intros acc Hok; simpl.
  - unfold strip_prefix. simpl. now rewrite app_nil_r.
  - rewrite strip_prefix_cons in *. unfold filter_step at 2. simpl.
    destruct (PyStr.startswith k p) eqn:Hk; [| now apply IH].
    rewrite PyStrFacts.replace_prefix_once by assumption.
    assert (Hfresh : get acc (PyStr.drop_chars (String.length p) k) = None).
    { apply get_None. unfold ok, keys in Hok. rewrite fmap_app in Hok.
      apply NoDup_app in Hok as (_ & Hd & _). intros Hin.
      apply (Hd _ Hin). simpl. apply elem_of_cons. now left. }
    rewrite setitem_fresh by assumption.
    rewrite IH; rewrite <- app_assoc; [reflexivity | exact Hok].
Qed.

Lemma drop_prefix_inj (p k1 k2 : string) :
  PyStr.startswith k1 p = true -> PyStr.startswith k2 p = true ->
  PyStr.drop_chars (String.length p) k1 = PyStr.drop_chars (String.length p) k2 ->
  k1 = k2.
Proof.
  intros H1 H2 E.
  rewrite (PyStrFacts.startswith_split _ _ H1), (PyStrFacts.startswith_split _ _ H2).
  now rewrite E.
Qed.

Lemma ok_strip_prefix (p : string) (d : pydict) : ok d -> ok (strip_prefix p d).
Proof.
  intros Hok. unfold ok, keys, strip_prefix.
  rewrite <- list_fmap_compose.
  apply (ok_filter (fun kv => PyStr.startswith kv.1 p = true)) in Hok.
  unfold ok, keys in Hok.
  assert (E : forall l : pydict,
    (fst ∘ (fun kv : string * pyval =>
              (PyStr.drop_chars (String.length p) kv.1, kv.2))) <$> l
    = PyStr.drop_chars (String.length p) <$> (fst <$> l)).
  { intros l. now rewrite <- list_fmap_compose. }
  rewrite E. apply NoDup_fmap_2_strong; [| exact Hok].
  intros k1 k2 Hk1 Hk2.
  apply list_elem_of_fmap in Hk1 as ([? v1] & -> & Hk1).
  apply list_elem_of_fmap in Hk2 as ([? v2] & -> & Hk2).
  apply list_elem_of_filter in Hk1 as [Hk1 _].
  apply list_elem_of_filter in Hk2 as [Hk2 _].
  simpl in *. now apply drop_prefix_inj.
Qed.

Lemma get_strip_prefix (p : string) (d : pydict) (k' : string) (v : pyval) :
  ok d ->
  get (strip_prefix p d) k' = Some v
  <-> exists k, get d k = Some v /\ PyStr.startswith k p = true
                /\ k' = PyStr.replace k p "" 1.
Proof.
  intros Hok. split.
  - intros H. apply get_Some_elem in H. unfold strip_prefix in H.
    apply list_elem_of_fmap in H as ([k v0] & E & Hin).
    injection E as -> ->. apply list_elem_of_filter in Hin as [Hp Hin].
    simpl in *. exists k. repeat split; [| assumption |].
    + now apply elem_get.
    + now rewrite PyStrFacts.replace_prefix_once.
  - intros (k & Hget & Hp & ->).
    rewrite PyStrFacts.replace_prefix_once by assumption.
    apply elem_get; [now apply ok_strip_prefix |].
    unfold strip_prefix. apply list_elem_of_fmap. exists (k, v). split; [reflexivity |].
    apply list_elem_of_filter. split; [exact Hp | now apply get_Some_elem].
Qed.

(** [filter_kwargs] on a heap where [kwargs] is a dictionary: the result
    is a fresh object that holds the stripped entries, and nothing else
    changes. *)
Lemma filter_kwargs_run (h : heap) (l : loc) (d : pydict) (p : string) :
  h !! l = Some d -> ok d ->
  filter_kwargs l p h = (<[fresh (dom h) := strip_prefix p d]> h, Ok (fresh (dom h))).
Proof.
  intros Hl Hok. unfold filter_kwargs, items, new_dict. unfold_M.
  rewrite Hl.
  rewrite (for_each_setitem p _ d _ []) by apply lookup_insert_eq.
  rewrite insert_insert_eq.
  rewrite fold_filter_step by (simpl; now apply ok_strip_prefix).
  reflexivity.
Qed.

Lemma fresh_loc_None (h : heap) : h !! fresh (dom h) = None.
Proof. apply not_elem_of_dom, is_fresh. Qed.

End HeapFacts.

(** ** Popping keys one after the other *)

Module RemoveFacts.
Import PyDict PyDictFacts HeapFacts.

Lemma ok_remove_all (ks : list string) :
  forall d : pydict, ok d -> ok (remove_all d ks).
Proof.
  unfold remove_all. induction ks as [|k ks IH]; intros d Hok; simpl; [assumption |].
  apply IH. now apply ok_remove.
Qed.

Lemma get_remove_all (ks : list string) (k' : string) :
  forall d : pydict,
    ok d ->
    get (remove_all d ks) k' = if bool_decide (k' ∈ ks) then None else get d k'.
Proof.
  unfold remove_all. induction ks as [|k ks IH]; intros d Hok; cbn [fold_left].
  - rewrite bool_decide_eq_false_2; [reflexivity | apply not_elem_of_nil].
  - rewrite IH by now apply ok_remove. rewrite get_remove by assumption.
    destruct (String.eqb k k') eqn:E.
    + apply String.eqb_eq in E. subst k'.
      rewrite (bool_decide_eq_true_2 (k ∈ k :: ks)) by (apply elem_of_cons; now left).
      now destruct (bool_decide (k ∈ ks)).
    + apply String.eqb_neq in E.
      destruct (decide (k' ∈ ks)) as [Hin | Hout].
      * rewrite !bool_decide_eq_true_2; [reflexivity | | assumption].
        apply elem_of_cons. now right.
      * rewrite !bool_decide_eq_false_2; [reflexivity | | assumption].
        rewrite elem_of_cons. intros [-> | ?]; congruence.
Qed.

(** A pop of a present key deletes it in place. *)
Lemma dict_pop_present (h : heap) (l : loc) (d : pydict) (k : string) :
  h !! l = Some d -> k ∈ keys d ->
  exists v, dict_pop l k h = (<[l := remove d k]> h, Ok v).
Proof.
  intros Hl Hk. unfold dict_pop, pop. rewrite Hl.
  destruct (get d k) as [v|] eqn:E; [now exists v |].
  apply get_None in E. contradiction.
Qed.

Lemma dict_pop_absent (h : heap) (l : loc) (d : pydict) (k : string) :
  h !! l = Some d -> k ∉ keys d ->
  dict_pop l k h = (h, Raise (KeyError k)).
Proof.
  intros Hl Hk. unfold dict_pop, pop. rewrite Hl.
  apply get_None in Hk. now rewrite Hk.
Qed.

Lemma keys_remove (d : pydict) (k x : string) :
  ok d -> x ∈ keys (remove d k) <-> x ∈ keys d /\ x <> k.
Proof.
  intros Hok. rewrite <- !contains_true. unfold contains.
  rewrite get_remove by assumption.
  destruct (String.eqb k x) eqn:E.
  - apply String.eqb_eq in E. subst x. split; [discriminate | tauto].
  - apply String.eqb_neq in E. destruct (get d x).
    + split; [intros _; split; [reflexivity | congruence] | reflexivity].
    + split; [discriminate | intros [? _]; discriminate].
Qed.

(** Every key distinct and present: all pops succeed. *)
Lemma list_comp_pop_all (l : loc) (ps : list string) :
  forall (h : heap) (d : pydict),
    h !! l = Some d -> ok d -> NoDup ps -> (forall k, k ∈ ps -> k ∈ keys d) ->
    exists vs, list_comp (dict_pop l) ps h = (<[l := remove_all d ps]> h, Ok vs).
Proof.
  induction ps as [|p ps IH]; intros h d Hl Hok Hnd Hin; simpl.
  - exists []. unfold ret, remove_all. simpl. now rewrite insert_id.
  - apply NoDup_cons in Hnd as [Hp Hnd].
    destruct (dict_pop_present h l d p Hl) as [v Hpop].
    { apply Hin, elem_of_cons. now left. }
    destruct (IH (<[l := remove d p]> h) (remove d p)) as [vs Hvs].
    + apply lookup_insert_eq.
    + now apply ok_remove.
    + assumption.
    + intros k Hk. apply keys_remove; [assumption |]. split.
      * apply Hin, elem_of_cons. now right.
      * intros ->. contradiction.
    + exists (v :: vs). unfold_M. rewrite Hpop, Hvs.
      now rewrite insert_insert_eq.
Qed.

(** The first missing key stops the run; the keys before it are gone. *)
Lemma list_comp_pop_stops (l : loc) (i : nat) :
  forall (ps : list string) (h : heap) (d : pydict) (k : string),
    h !! l = Some d -> ok d ->
    ps !! i = Some k ->
    (k ∉ keys d \/ k ∈ take i ps) ->
    (forall j, j < i -> ~ absent_at d ps j) ->
    list_comp (dict_pop l) ps h
    = (<[l := remove_all d (take i ps)]> h, Raise (KeyError k)).
Proof.
  induction i as [|i IH]; intros ps h d k Hl Hok Hi Habs Hmin;
    destruct ps as [|p ps]; try discriminate; simpl in *.
  - injection Hi as ->. destruct Habs as [Habs | Habs].
    + unfold_M. rewrite (dict_pop_absent h l d k Hl Habs).
      unfold remove_all. simpl. now rewrite insert_id.
    + now apply elem_of_nil in Habs.
  - assert (Hp : p ∈ keys d).
    { destruct (decide (p ∈ keys d)) as [|Hout]; [assumption |].
      exfalso. apply (Hmin 0); [lia |]. exists p. split; [reflexivity | now left]. }
    destruct (dict_pop_present h l d p Hl Hp) as [v Hpop].
    unfold_M. rewrite Hpop.
    rewrite (IH ps (<[l := remove d p]> h) (remove d p) k).
    + now rewrite insert_insert_eq.
    + apply lookup_insert_eq.
    + now apply ok_remove.
    + assumption.
    + destruct Habs as [Habs | Habs].
      * left. intros Hin. apply Habs. eapply keys_remove_subseteq, Hin.
      * apply elem_of_cons in Habs as [-> | Habs]; [| now right].
        left. intros Hin. apply keys_remove in Hin; [| assumption]. tauto.
    + intros j Hj (k' & Hk' & Hbad). apply (Hmin (S j)); [lia |].
      exists k'. split; [exact Hk' |]. simpl.
      destruct Hbad as [Hbad | Hbad].
      * destruct (decide (k' = p)) as [-> | Hne].
        -- right. apply elem_of_cons. now left.
        -- left. intros Hin. apply Hbad. apply keys_remove; [assumption |]. tauto.
      * right. apply elem_of_cons. now right.
Qed.

Lemma absent_at_dec (d : pydict) (ps : list string) (i : nat) :
  absent_at d ps i \/ ~ absent_at d ps i.
Proof.
  unfold absent_at. destruct (ps !! i) as [k|] eqn:E.
  - destruct (decide (k ∉ keys d \/ k ∈ take i ps)) as [H | H].
    + left. eauto.
    + right. intros (k' & [= <-] & H'). contradiction.
  - right. intros (k' & [=] & _).
Qed.

(** Among the first [n] positions either none is missing or there is a
    first missing one. *)
Lemma first_absent (d : pydict) (ps : list string) (n : nat) :
  (forall i, i < n -> ~ absent_at d ps i)
  \/ (exists i, i < n /\ absent_at d ps i /\ forall j, j < i -> ~ absent_at d ps j).
Proof.
  induction n as [|n [IH | (i & Hi & Habs & Hmin)]].
  - left. intros i Hi. lia.
  - destruct (absent_at_dec d ps n) as [Habs | Hok].
    + right. exists n. repeat split; [lia | assumption | assumption].
    + left. intros i Hi. destruct (decide (i = n)) as [-> |]; [assumption |].
      apply IH. lia.
  - right. exists i. repeat split; [lia | assumption | assumption].
Qed.

Lemma none_absent (d : pydict) (ps : list string) :
  (forall i, ~ absent_at d ps i) ->
  NoDup ps /\ forall k, k ∈ ps -> k ∈ keys d.
Proof.
  intros Hnone. split.
  - apply NoDup_alt. intros i j x Hi Hj.
    destruct (Nat.lt_trichotomy i j) as [Hlt | [-> | Hlt]]; [| reflexivity |].
    + exfalso. apply (Hnone j). exists x. split; [assumption | right].
      apply elem_of_take. eauto.
    + exfalso. apply (Hnone i). exists x. split; [assumption | right].
      apply elem_of_take. eauto.
  - intros k Hk. apply list_elem_of_lookup in Hk as [i Hi].
    destruct (decide (k ∈ keys d)) as [|Hout]; [assumption |].
    exfalso. apply (Hnone i). exists k. split; [assumption | now left].
Qed.

Lemma remove_params_unfold (l : loc) (ps : list string) (h : heap) :
  remove_params l ps h
  = match list_comp (dict_pop l) ps h with
    | (h', Ok _) => (h', Ok tt)
    | (h', Raise e) => (h', Raise e)
    end.
Proof. reflexivity. Qed.

End RemoveFacts.

(** ** Filtering keyword arguments *)

Lemma strip_prefix_empty (d : pydict) : strip_prefix "" d = d.
Proof.
  induction d as [|[k v] d IH]; [reflexivity |].
  rewrite HeapFacts.strip_prefix_cons, PyStrFacts.startswith_empty. simpl.
  now rewrite IH.
Qed.

Lemma example_kwargs_ok : PyDict.ok example_kwargs.
Proof. unfold PyDict.ok. apply (bool_decide_unpack _). vm_compute. exact I. Qed.

(** C4: [filter_kwargs(d, p)] is a new dictionary that holds, for exactly
    the keys of [d] that start with [p], the key with the first occurrence
    of [p] removed, mapped to the original value, and nothing else; the
    documented examples evaluate as stated. *)
Theorem filter_kwargs_strips_prefix (h : heap) (kwargs : loc) (d : pydict)
    (p : string) :
  h !! kwargs = Some d -> PyDict.ok d ->
  (exists (out : loc) (res : pydict),
      filter_kwargs kwargs p h = (<[out := res]> h, Ok out)
      /\ h !! out = None
      /\ PyDict.ok res
      /\ forall (k' : string) (v : pyval),
           PyDict.get res k' = Some v
           <-> exists k, PyDict.get d k = Some v
                         /\ PyStr.startswith k p = true
                         /\ k' = PyStr.replace k p "" 1)
  /\ (let h0 : heap := {[ 0 := example_kwargs ]} in
      filter_kwargs 0 "a_" h0
        = (<[1 := [("b", PInt 1); ("c", PInt 2)]]> h0, Ok 1)
      /\ filter_kwargs 0 "b_" h0 = (<[1 := [("abc", PStr "x")]]> h0, Ok 1)
      /\ filter_kwargs 0 "z_" h0 = (<[1 := []]> h0, Ok 1)).
Proof.
  intros Hl Hok. split.
  - exists (fresh (dom h)), (strip_prefix p d).
    split; [now apply HeapFacts.filter_kwargs_run |].
    split; [apply HeapFacts.fresh_loc_None |].
    split; [now apply HeapFacts.ok_strip_prefix |].
    intros k' v. now apply HeapFacts.get_strip_prefix.
  - pose proof example_kwargs_ok as Hex.
    cbv zeta.
    rewrite !(HeapFacts.filter_kwargs_run _ 0 example_kwargs)
      by (assumption || apply lookup_singleton_eq).
    repeat split.
Qed.

Lemma filter_kwargs_strips_prefix_witness :
  exists (out : loc) (res : pydict),
    filter_kwargs 0 "a_" {[ 0 := example_kwargs ]}
      = (<[out := res]> {[ 0 := example_kwargs ]}, Ok out)
    /\ PyDict.get res "b" = Some (PInt 1).
Proof.
  pose proof example_kwargs_ok as Hex.
  destruct (filter_kwargs_strips_prefix {[ 0 := example_kwargs ]} 0 example_kwargs "a_"
              (lookup_singleton_eq _ _) Hex)
    as [(out & res & Hrun & _ & _ & Hget) _].
  exists out, res. split; [exact Hrun |].
  apply Hget. exists "a_b". repeat split.
Defined.

(** C10: [filter_kwargs] leaves its input dictionary, and every other
    dictionary that exists, as it was; with the empty prefix the result
    has the same entries as the input. *)
Theorem filter_kwargs_keeps_input (h : heap) (kwargs : loc) (d : pydict)
    (p : string) :
  h !! kwargs = Some d -> PyDict.ok d ->
  (filter_kwargs kwargs p h).1 !! kwargs = Some d
  /\ (forall l : loc, l ∈ dom h -> (filter_kwargs kwargs p h).1 !! l = h !! l)
  /\ exists out : loc,
       filter_kwargs kwargs "" h = (<[out := d]> h, Ok out)
       /\ h !! out = None.
Proof.
  intros Hl Hok.
  assert (Hkeep : forall l : loc, l ∈ dom h ->
            (filter_kwargs kwargs p h).1 !! l = h !! l).
  { intros l Hin. rewrite (HeapFacts.filter_kwargs_run h kwargs d) by assumption.
    simpl. apply lookup_insert_ne. intros <-. now apply is_fresh in Hin. }
  split; [| split].
  - rewrite Hkeep; [assumption |]. apply elem_of_dom. eauto.
  - exact Hkeep.
  - exists (fresh (dom h)).
    rewrite (HeapFacts.filter_kwargs_run h kwargs d) by assumption.
    rewrite strip_prefix_empty. split; [reflexivity | apply HeapFacts.fresh_loc_None].
Qed.

Lemma filter_kwargs_keeps_input_witness :
  (filter_kwargs 0 "a_" {[ 0 := example_kwargs ]}).1 !! 0 = Some example_kwargs.
Proof.
  pose proof example_kwargs_ok as Hex.
  exact (proj1 (filter_kwargs_keeps_input {[ 0 := example_kwargs ]} 0 example_kwargs "a_"
                  (lookup_singleton_eq _ _) Hex)).
Defined.

(** ** Removing listed keys in place *)

(** C5 as stated fails on a key listed twice: every listed key is in the
    dictionary, yet the second pop of ["a"] raises and ["b"] is never
    removed. *)
Lemma remove_params_repeated_key_counterexample :
  let d : pydict := [("a", PInt 1); ("b", PInt 2)] in
  let ps := ["a"; "a"; "b"] in
  PyDict.ok d
  /\ (forall k, k ∈ ps -> PyDict.contains d k = true)
  /\ remove_params 0 ps {[ 0 := d ]}
     = ({[ 0 := [("b", PInt 2)] ]}, Raise (KeyError "a"))
  /\ ~ (forall k, k ∈ ps -> PyDict.get [("b", PInt 2)] k = None).
Proof.
  cbv zeta. split; [| split; [| split]].
  - unfold PyDict.ok. apply (bool_decide_unpack _). vm_compute. exact I.
  - intros k Hk. repeat (apply elem_of_cons in Hk as [-> | Hk]; [reflexivity |]).
    now apply elem_of_nil in Hk.
  - vm_compute. reflexivity.
  - intros H. specialize (H "b"). simpl in H.
    assert (Hb : "b" ∈ ["a"; "a"; "b"]) by (repeat constructor).
    specialize (H Hb). discriminate.
Qed.

(** C5 (amended): when the keys of [ps] are pairwise distinct and all in
    [d], [remove_params(d, ps)] returns normally and has updated [d] in
    place: no key of [ps] is left, and every other entry is unchanged. *)
Theorem remove_params_removes_listed (h : heap) (kwargs : loc) (d : pydict)
    (ps : list string) :
  h !! kwargs = Some d -> PyDict.ok d ->
  NoDup ps ->
  (forall k, k ∈ ps -> PyDict.contains d k = true) ->
  exists d' : pydict,
    remove_params kwargs ps h = (<[kwargs := d']> h, Ok tt)
    /\ (forall k, k ∈ ps -> PyDict.get d' k = None)
    /\ (forall k, k ∉ ps -> PyDict.get d' k = PyDict.get d k).
Proof.
  intros Hl Hok Hnd Hin. exists (remove_all d ps).
  destruct (RemoveFacts.list_comp_pop_all kwargs ps h d Hl Hok Hnd) as [vs Hvs].
  { intros k Hk. now apply PyDictFacts.contains_true, Hin. }
  split; [| split].
  - rewrite RemoveFacts.remove_params_unfold. now rewrite Hvs.
  - intros k Hk. rewrite RemoveFacts.get_remove_all by assumption.
    now rewrite bool_decide_eq_true_2.
  - intros k Hk. rewrite RemoveFacts.get_remove_all by assumption.
    now rewrite bool_decide_eq_false_2.
Qed.

Lemma remove_params_removes_listed_witness :
  exists d' : pydict,
    remove_params 0 ["a_b"; "b_abc"] {[ 0 := example_kwargs ]}
      = (<[0 := d']> {[ 0 := example_kwargs ]}, Ok tt)
    /\ (forall k, k ∈ ["a_b"; "b_abc"] -> PyDict.get d' k = None)
    /\ (forall k, k ∉ ["a_b"; "b_abc"] -> PyDict.get d' k = PyDict.get example_kwargs k).
Proof.
  apply (remove_params_removes_listed {[ 0 := example_kwargs ]} 0 example_kwargs
           ["a_b"; "b_abc"]).
  - reflexivity.
  - exact example_kwargs_ok.
  - apply (bool_decide_unpack _). vm_compute. exact I.
  - intros k Hk. repeat (apply elem_of_cons in Hk as [-> | Hk]; [reflexivity |]).
    now apply elem_of_nil in Hk.
Defined.

(** C6: [remove_params(d, ps)] raises a missing-key error exactly when
    some key of [ps] is absent from [d] at its turn (never there, or
    removed by an earlier element of [ps]); the error names the first such
    key, and [d] is left with exactly the keys of [ps] before it removed. *)
Theorem remove_params_missing_key (h : heap) (kwargs : loc) (d : pydict)
    (ps : list string) :
  h !! kwargs = Some d -> PyDict.ok d ->
  ((exists e, (remove_params kwargs ps h).2 = Raise e)
   <-> exists i, absent_at d ps i)
  /\ (forall (i : nat) (k : string),
        ps !! i = Some k -> absent_at d ps i ->
        (forall j, j < i -> ~ absent_at d ps j) ->
        exists d' : pydict,
          remove_params kwargs ps h = (<[kwargs := d']> h, Raise (KeyError k))
          /\ forall k', PyDict.get d' k'
               = if bool_decide (k' ∈ take i ps) then None else PyDict.get d k').
Proof.
  intros Hl Hok.
  assert (Hstop : forall (i : nat) (k : string),
            ps !! i = Some k -> absent_at d ps i ->
            (forall j, j < i -> ~ absent_at d ps j) ->
            remove_params kwargs ps h
            = (<[kwargs := remove_all d (take i ps)]> h, Raise (KeyError k))).
  { intros i k Hi (k0 & Hk0 & Habs) Hmin.
    assert (k0 = k) as -> by congruence.
    rewrite RemoveFacts.remove_params_unfold.
    now rewrite (RemoveFacts.list_comp_pop_stops kwargs i ps h d k). }
  split.
  - split.
    + intros [e He].
      destruct (RemoveFacts.first_absent d ps (length ps))
        as [Hnone | (i & _ & Habs & _)]; [| eauto].
      exfalso.
      destruct (RemoveFacts.none_absent d ps) as [Hnd Hin].
      { intros i. destruct (decide (i < length ps)) as [Hlt | Hge]; [auto |].
        intros (k & Hk & _). apply lookup_lt_Some in Hk. lia. }
      destruct (RemoveFacts.list_comp_pop_all kwargs ps h d Hl Hok Hnd Hin)
        as [vs Hvs].
      rewrite RemoveFacts.remove_params_unfold, Hvs in He. discriminate.
    + intros [i0 Habs0].
      assert (Hlt : i0 < length ps).
      { destruct Habs0 as (k & Hk & _). now apply lookup_lt_Some in Hk. }
      destruct (RemoveFacts.first_absent d ps (length ps))
        as [Hnone | (i & _ & Habs & Hmin)].
      * exfalso. now apply (Hnone i0).
      * pose proof Habs as (k & Hk & _).
        exists (KeyError k). now rewrite (Hstop i k).
  - intros i k Hi Habs Hmin. exists (remove_all d (take i ps)).
    split; [now apply Hstop |].
    intros k'. now apply RemoveFacts.get_remove_all.
Qed.

Lemma remove_params_missing_key_witness :
  exists d' : pydict,
    remove_params 0 ["a_b"; "zz"; "a_c"] {[ 0 := example_kwargs ]}
      = (<[0 := d']> {[ 0 := example_kwargs ]}, Raise (KeyError "zz"))
    /\ forall k', PyDict.get d' k'
         = if bool_decide (k' ∈ take 1 ["a_b"; "zz"; "a_c"])
           then None else PyDict.get example_kwargs k'.
Proof.
  refine (proj2 (remove_params_missing_key {[ 0 := example_kwargs ]} 0
                   example_kwargs ["a_b"; "zz"; "a_c"] _ _) 1 "zz" _ _ _).
  - reflexivity.
  - exact example_kwargs_ok.
  - reflexivity.
  - exists "zz". split; [reflexivity |]. left.
    apply (bool_decide_unpack _). vm_compute. exact I.
  - intros j Hj (k & Hk & Hbad).
    assert (j = 0) as -> by lia. injection Hk as <-.
    destruct Hbad as [Hbad | Hbad].
    + apply Hbad. apply (bool_decide_unpack _). vm_compute. exact I.
    + now apply elem_of_nil in Hbad.
Defined.

(** ** Aggregating constructor parameters *)

Module GetParamsFacts.
Import PyDict PyDictFacts HeapFacts.

(** The snapshot entries that are keyword-only parameters of the class. *)
Lemma get_declared (ps : list (string * ParamKind)) (d : pydict) (k : string) :
  ok d ->
  get (update [] (update [] (filter (fun kv : string * pyval =>
                                       is_keyword_only ps kv.1 = true) d))) k
  = if is_keyword_only ps k then get d k else None.
Proof.
  intros Hok.
  pose proof (ok_filter (fun kv => is_keyword_only ps kv.1 = true) d Hok) as Hf.
  rewrite !update_nil_ok by (rewrite ?update_nil_ok; assumption).
  apply (get_filter_key (is_keyword_only ps)).
Qed.

Lemma ok_declared (ps : list (string * ParamKind)) (d : pydict) :
  ok d ->
  ok (update [] (update [] (filter (fun kv : string * pyval =>
                                      is_keyword_only ps kv.1 = true) d))).
Proof.
  intros Hok. apply ok_update. unfold ok. simpl. constructor.
Qed.

(** A failed contract check: the call raises before it touches the heap. *)
Lemma get_params_falsy_self (h : heap) (allvars : loc) (d : pydict) :
  h !! allvars = Some d ->
  is_truthy h (default PNone (get d "self")) = false ->
  get_params allvars h = (h, Raise AssertionError).
Proof.
  intros Hl Hf. unfold get_params, items, truthy. unfold_M.
  rewrite Hl. simpl. now rewrite Hf.
Qed.

Lemma get_params_no_kwargs (h : heap) (allvars : loc) (d : pydict) :
  h !! allvars = Some d ->
  get d "kwargs" = None ->
  get_params allvars h = (h, Raise AssertionError).
Proof.
  intros Hl Hk. unfold get_params, items, truthy. unfold_M.
  rewrite Hl. simpl.
  destruct (is_truthy h (default PNone (get d "self"))); [| reflexivity].
  unfold contains. now rewrite Hk.
Qed.

Lemma get_params_run (h : heap) (allvars : loc) (d : pydict) (self : pyval)
    (lk : loc) (kw : pydict) :
  h !! allvars = Some d ->
  get d "self" = Some self -> is_truthy h self = true ->
  get d "kwargs" = Some (PDict lk) -> h !! lk = Some kw ->
  get_params allvars h
  = (<[fresh (dom h) :=
         update
           (update [] (update [] (filter (fun kv : string * pyval =>
              is_keyword_only (init_parameters (type_of self)) kv.1 = true) d)))
           kw]> h,
     Ok (fresh (dom h))).
Proof.
  intros Hl Hself Ht Hkw Hlk.
  unfold get_params, items, truthy, unpack_mapping, new_dict. unfold_M.
  rewrite Hl. simpl. rewrite Hself. simpl. rewrite Ht.
  unfold contains. rewrite Hkw. simpl. rewrite Hlk.
  destruct kw as [|entry kw]; simpl; rewrite ?Hlk; reflexivity.
Qed.

End GetParamsFacts.

(** C1 as stated fails on a receiver that is false as a boolean: the
    snapshot has its [self] entry and a [kwargs] dictionary, yet the call
    raises instead of returning a dictionary. *)
Lemma get_params_falsy_receiver_counterexample :
  let d : pydict :=
    [("self", PObj {| obj_class := bag; obj_bool := false |});
     ("c", PInt 3); ("kwargs", PDict 0)] in
  falsy_receiver_locals !! 1 = Some d
  /\ PyDict.contains d "self" = true
  /\ PyDict.get d "kwargs" = Some (PDict 0)
  /\ falsy_receiver_locals !! 0 = Some []
  /\ get_params 1 falsy_receiver_locals
     = (falsy_receiver_locals, Raise AssertionError).
Proof.
  cbv zeta. repeat split; vm_compute; reflexivity.
Qed.

(** C1 (amended): for a snapshot whose [self] entry is true as a boolean
    and whose [kwargs] entry is a dictionary, [get_params] returns a new
    dictionary that holds exactly the snapshot entries named by
    keyword-only parameters of the receiver's constructor, overlaid with
    the [kwargs] dictionary, whose entries win on a shared key; the
    documented call yields [{"c": 3, "d": "DDD", "foobar": "baz"}]. *)
Theorem get_params_merges (h : heap) (allvars : loc) (d : pydict)
    (self : pyval) (lk : loc) (kw : pydict) :
  h !! allvars = Some d -> PyDict.ok d ->
  PyDict.get d "self" = Some self -> is_truthy h self = true ->
  PyDict.get d "kwargs" = Some (PDict lk) ->
  h !! lk = Some kw -> PyDict.ok kw ->
  (exists (out : loc) (res : pydict),
      get_params allvars h = (<[out := res]> h, Ok out)
      /\ h !! out = None
      /\ PyDict.ok res
      /\ forall k : string,
           PyDict.get res k
           = match PyDict.get kw k with
             | Some v => Some v
             | None =>
                 if is_keyword_only (init_parameters (type_of self)) k
                 then PyDict.get d k
                 else None
             end)
  /\ get_params 1 example_locals
     = (<[2 := [("c", PInt 3); ("d", PStr "DDD"); ("foobar", PStr "baz")]]>
          example_locals, Ok 2).
Proof.
  intros Hl Hok Hself Ht Hkw Hlk Hokkw. split.
  - eexists _, _.
    split; [exact (GetParamsFacts.get_params_run h allvars d self lk kw
                     Hl Hself Ht Hkw Hlk) |].
    split; [apply HeapFacts.fresh_loc_None |].
    split.
    + apply PyDictFacts.ok_update. now apply GetParamsFacts.ok_declared.
    + intros k. rewrite PyDictFacts.get_update by assumption.
      now rewrite GetParamsFacts.get_declared.
  - vm_compute. reflexivity.
Qed.

Lemma get_params_merges_witness :
  exists (out : loc) (res : pydict),
    get_params 1 example_locals = (<[out := res]> example_locals, Ok out)
    /\ PyDict.get res "d" = Some (PStr "DDD")
    /\ PyDict.get res "a" = None.
Proof.
  destruct (get_params_merges example_locals 1
              [("self", PObj {| obj_class := foo; obj_bool := true |});
               ("a", PStr "a"); ("b", PStr "b"); ("c", PInt 3); ("d", PStr "DDD");
               ("kwargs", PDict 0)]
              (PObj {| obj_class := foo; obj_bool := true |})
              0 [("foobar", PStr "baz")])
    as [(out & res & Hrun & _ & _ & Hget) _].
  - reflexivity.
  - unfold PyDict.ok. apply (bool_decide_unpack _). vm_compute. exact I.
  - reflexivity.
  - reflexivity.
  - reflexivity.
  - reflexivity.
  - unfold PyDict.ok. apply (bool_decide_unpack _). vm_compute. exact I.
  - exists out, res. split; [exact Hrun |]. rewrite !Hget. split; reflexivity.
Defined.

(** C2: a snapshot without a [self] entry or without a [kwargs] entry
    makes [get_params] raise: the assertion error reaches the caller and
    no result is returned. *)
Theorem get_params_requires_entries (h : heap) (allvars : loc) (d : pydict) :
  h !! allvars = Some d ->
  PyDict.get d "self" = None \/ PyDict.get d "kwargs" = None ->
  get_params allvars h = (h, Raise AssertionError).
Proof.
  intros Hl [Hself | Hkw].
  - apply (GetParamsFacts.get_params_falsy_self h allvars d Hl).
    now rewrite Hself.
  - now apply (GetParamsFacts.get_params_no_kwargs h allvars d).
Qed.

Lemma get_params_requires_entries_witness :
  get_params 0 {[ 0 := [("kwargs", PDict 1)]; 1 := [] ]}
  = ({[ 0 := [("kwargs", PDict 1)]; 1 := [] ]}, Raise AssertionError)
  /\ get_params 0 ({[ 0 := [("self", PObj {| obj_class := foo; obj_bool := true |})] ]})
     = ({[ 0 := [("self", PObj {| obj_class := foo; obj_bool := true |})] ]},
        Raise AssertionError).
Proof.
  split.
  - apply (get_params_requires_entries _ 0 [("kwargs", PDict 1)]).
    + reflexivity.
    + left. reflexivity.
  - apply (get_params_requires_entries _ 0
             [("self", PObj {| obj_class := foo; obj_bool := true |})]).
    + reflexivity.
    + right. reflexivity.
Defined.

(** C9: a [self] entry that is present but false as a boolean ([None],
    [0], the empty string, ...) fails the contract check: [get_params]
    raises although the entry exists. *)
Theorem get_params_rejects_falsy_self (h : heap) (allvars : loc) (d : pydict)
    (v : pyval) :
  h !! allvars = Some d ->
  PyDict.get d "self" = Some v ->
  is_truthy h v = false ->
  get_params allvars h = (h, Raise AssertionError)
  /\ is_truthy h PNone = false
  /\ is_truthy h (PInt 0) = false
  /\ is_truthy h (PStr "") = false.
Proof.
  intros Hl Hself Hf. repeat split.
  apply (GetParamsFacts.get_params_falsy_self h allvars d Hl).
  now rewrite Hself.
Qed.

Lemma get_params_rejects_falsy_self_witness :
  get_params 0 {[ 0 := [("self", PInt 0); ("kwargs", PDict 1)]; 1 := [] ]}
  = ({[ 0 := [("self", PInt 0); ("kwargs", PDict 1)]; 1 := [] ]},
     Raise AssertionError).
Proof.
  apply (get_params_rejects_falsy_self _ 0 [("self", PInt 0); ("kwargs", PDict 1)]
           (PInt 0)); reflexivity.
Defined.

(** ** Logger set-up *)

Module LoggingFacts.
Import Logging.

Lemma getLogger_ref (name : option string) (σ : state) :
  (getLogger name σ).2 = logger_of name.
Proof.
  unfold getLogger, logger_of. destruct name as [n|]; [| reflexivity].
  destruct (String.eqb n "" || String.eqb n "root"); [reflexivity |].
  now destruct (loggerDict σ !! n).
Qed.

(** Looking a logger up never changes what any reference denotes. *)
Lemma getLogger_deref (name : option string) (σ : state) (r : logger_ref) :
  deref (getLogger name σ).1 r = deref σ r.
Proof.
  unfold getLogger. destruct name as [n|]; [| reflexivity].
  destruct (String.eqb n "" || String.eqb n "root"); [reflexivity |].
  destruct (loggerDict σ !! n) eqn:E; [reflexivity |].
  destruct r as [|m]; simpl; [reflexivity |].
  destruct (decide (n = m)) as [-> | Hne].
  - now rewrite lookup_insert_eq, E.
  - now rewrite lookup_insert_ne.
Qed.

(** A logger that has a handler is already in the registry: looking it
    up leaves the registry as it is. *)
Lemma getLogger_registered (name : option string) (σ : state) :
  handlers (deref σ (logger_of name)) <> [] ->
  getLogger name σ = (σ, logger_of name).
Proof.
  unfold getLogger, logger_of. destruct name as [n|]; [| reflexivity].
  destruct (String.eqb n "" || String.eqb n "root"); [reflexivity |].
  simpl. destruct (loggerDict σ !! n); [reflexivity |].
  simpl. congruence.
Qed.

Lemma deref_store (σ : state) (r r' : logger_ref) (lg : Logger) :
  deref (store σ r lg) r' = if decide (r = r') then lg else deref σ r'.
Proof.
  destruct r as [|n], r' as [|m]; simpl; try reflexivity.
  destruct (decide (n = m)) as [-> | Hne].
  - rewrite lookup_insert_eq. simpl.
    destruct (decide (Named m = Named m)); [reflexivity | congruence].
  - rewrite lookup_insert_ne by assumption.
    destruct (decide (Named n = Named m)); [congruence | reflexivity].
Qed.

Lemma deref_info (σ : state) (r r' : logger_ref) (msg : string) :
  deref (info r msg σ) r' = deref σ r'.
Proof. now destruct r'. Qed.

Lemma existsb_handlers_named (name : option string) (lg : Logger) :
  existsb (fun h => name_eqb (handler_name h) name) (handlers lg) = false
  <-> handlers_named name lg = [].
Proof.
  unfold handlers_named. induction (handlers lg) as [|h hs IH]; simpl.
  - tauto.
  - destruct (name_eqb (handler_name h) name); simpl; [| exact IH].
    split; discriminate.
Qed.

Lemma name_eqb_eq (a b : option string) : name_eqb a b = true <-> a = b.
Proof.
  destruct a as [x|], b as [y|]; simpl; try (split; congruence).
  rewrite String.eqb_eq. split; congruence.
Qed.

Lemma handlers_named_snoc (n : option string) (lv : Z) (hs : list Handler)
    (h : Handler) :
  handlers_named n {| level := lv; handlers := hs ++ [h] |}
  = handlers_named n {| level := lv; handlers := hs |}
      ++ (if name_eqb (handler_name h) n then [h] else []).
Proof.
  unfold handlers_named. simpl. rewrite List.filter_app. simpl.
  now destruct (name_eqb (handler_name h) n).
Qed.

Section WithFormatter.

Variable format_valid : string -> bool.

(** The three ways a call can end. *)
Lemma setup_logger_cases (env name : option string) (lvl : option Z)
    (fmt : option string) (σ : state) :
  let σ0 := (getLogger name σ).1 in
  let r := logger_of name in
  if existsb (fun h => name_eqb (handler_name h) name) (handlers (deref σ r))
  then setup_logger format_valid env name lvl fmt σ
       = (info r ("Handler " +:+ name_text name +:+ " already initialized") σ0, Ok r)
  else
    match checkLevel (resolve_level env lvl) with
    | Raise e => setup_logger format_valid env name lvl fmt σ = (σ0, Raise e)
    | Ok n =>
        if format_valid (format_or_default fmt)
        then exists msg,
               setup_logger format_valid env name lvl fmt σ
               = (info r msg
                    (addHandler r {| handler_name := name; handler_level := n;
                                     handler_format := format_or_default fmt |}
                       (setLevel r n σ0)), Ok r)
        else setup_logger format_valid env name lvl fmt σ
             = (setLevel r n σ0, Raise ValueError)
    end.
Proof.
  intros σ0 r. unfold setup_logger.
  pose proof (getLogger_ref name σ) as Hr.
  pose proof (getLogger_deref name σ r) as Hd.
  destruct (getLogger name σ) as [σ' r'] eqn:E. simpl in Hr, Hd. subst r'.
  subst σ0. simpl. fold r. rewrite Hd.
  destruct (existsb _ (handlers (deref σ r))); [reflexivity |].
  destruct (checkLevel (resolve_level env lvl)) as [n | e]; [| reflexivity].
  destruct (format_valid (format_or_default fmt)); [| reflexivity].
  eexists. reflexivity.
Qed.

(** Every call, whether it returns or raises, keeps the invariant. *)
Lemma setup_logger_invariant (env name : option string) (lvl : option Z)
    (fmt : option string) (σ : state) :
  one_handler_per_name σ ->
  one_handler_per_name (setup_logger format_valid env name lvl fmt σ).1.
Proof.
  intros Hinv.
  pose proof (setup_logger_cases env name lvl fmt σ) as Hc. cbv zeta in Hc.
  assert (H0 : forall r', deref (getLogger name σ).1 r' = deref σ r')
    by (intros; apply getLogger_deref).
  destruct (existsb _ (handlers (deref σ (logger_of name)))) eqn:Hex.
  - rewrite Hc. intros r' n. simpl. rewrite deref_info, H0. apply Hinv.
  - destruct (checkLevel (resolve_level env lvl)) as [lv | e].
    + destruct (format_valid (format_or_default fmt)).
      * destruct Hc as [msg ->]. intros r' n. simpl.
        rewrite deref_info. unfold addHandler. rewrite deref_store.
        destruct (decide (logger_of name = r')) as [<- | Hne].
        -- rewrite handlers_named_snoc. unfold setLevel. rewrite deref_store.
           destruct (decide (logger_of name = logger_of name)); [| congruence].
           simpl. rewrite H0. rewrite length_app.
           destruct (name_eqb name n) eqn:En.
           ++ apply name_eqb_eq in En. subst n.
              apply existsb_handlers_named in Hex.
              unfold handlers_named in *. simpl. rewrite Hex. simpl. lia.
           ++ simpl. specialize (Hinv (logger_of name) n).
              unfold handlers_named in *. simpl. lia.
        -- unfold setLevel. rewrite deref_store.
           destruct (decide (logger_of name = r')); [congruence |].
           rewrite H0. apply Hinv.
      * rewrite Hc. intros r' n. simpl. unfold setLevel. rewrite deref_store.
        destruct (decide (logger_of name = r')) as [<- | Hne].
        -- rewrite H0. apply (Hinv (logger_of name) n).
        -- rewrite H0. apply Hinv.
    + rewrite Hc. intros r' n. simpl. rewrite H0. apply Hinv.
Qed.

(** After a call that returns, the logger carries a handler with the name. *)
Lemma setup_logger_attached (env name : option string) (lvl : option Z)
    (fmt : option string) (σ σ1 : state) (r1 : logger_ref) :
  setup_logger format_valid env name lvl fmt σ = (σ1, Ok r1) ->
  r1 = logger_of name
  /\ existsb (fun h => name_eqb (handler_name h) name)
       (handlers (deref σ1 (logger_of name))) = true.
Proof.
  intros Hrun.
  pose proof (setup_logger_cases env name lvl fmt σ) as Hc. cbv zeta in Hc.
  destruct (existsb _ (handlers (deref σ (logger_of name)))) eqn:Hex.
  - rewrite Hc in Hrun. injection Hrun as <- <-. split; [reflexivity |].
    now rewrite deref_info, getLogger_deref.
  - destruct (checkLevel (resolve_level env lvl)) as [lv | e].
    + destruct (format_valid (format_or_default fmt)).
      * destruct Hc as [msg Hc]. rewrite Hc in Hrun. injection Hrun as <- <-.
        split; [reflexivity |].
        rewrite deref_info. unfold addHandler. rewrite deref_store.
        destruct (decide (logger_of name = logger_of name)); [| congruence].
        simpl. rewrite existsb_app. simpl.
        assert (En : name_eqb name name = true) by now apply name_eqb_eq.
        rewrite En. now rewrite orb_true_r.
      * rewrite Hc in Hrun. discriminate.
    + rewrite Hc in Hrun. discriminate.
Qed.

(** A call on a logger that carries the handler only records a note. *)
Lemma setup_logger_again (env name : option string) (lvl : option Z)
    (fmt : option string) (σ : state) :
  existsb (fun h => name_eqb (handler_name h) name)
    (handlers (deref σ (logger_of name))) = true ->
  exists σ', setup_logger format_valid env name lvl fmt σ = (σ', Ok (logger_of name))
             /\ root σ' = root σ /\ loggerDict σ' = loggerDict σ.
Proof.
  intros Hex.
  pose proof (setup_logger_cases env name lvl fmt σ) as Hc. cbv zeta in Hc.
  rewrite Hex in Hc. eexists. split; [exact Hc |].
  rewrite getLogger_registered; [split; reflexivity |].
  intros Hnil. rewrite Hnil in Hex. discriminate.
Qed.

Lemma setup_logger_calls_again (name : option string)
    (calls : list (option string * option Z * option string)) :
  forall σ : state,
    existsb (fun h => name_eqb (handler_name h) name)
      (handlers (deref σ (logger_of name))) = true ->
    exists σ', setup_logger_calls format_valid name calls σ
               = (σ', Ok (replicate (length calls) (logger_of name)))
               /\ root σ' = root σ /\ loggerDict σ' = loggerDict σ.
Proof.
  induction calls as [|[[env lvl] fmt] calls IH]; intros σ Hex; simpl.
  - eauto.
  - destruct (setup_logger_again env name lvl fmt σ Hex) as (σ' & -> & Hr & Hd).
    destruct (IH σ') as (σ'' & -> & Hr' & Hd').
    + destruct (logger_of name); simpl in *; congruence.
    + exists σ''. repeat split; congruence.
Qed.

(** A level that passes the check and a format the formatter accepts:
    the call returns. *)
Lemma setup_logger_returns (env name : option string) (lvl : option Z)
    (fmt : option string) (σ : state) (n : Z) :
  checkLevel (resolve_level env lvl) = Ok n ->
  format_valid (format_or_default fmt) = true ->
  exists σ', setup_logger format_valid env name lvl fmt σ = (σ', Ok (logger_of name)).
Proof.
  intros Hlv Hfmt.
  pose proof (setup_logger_cases env name lvl fmt σ) as Hc. cbv zeta in Hc.
  rewrite Hlv, Hfmt in Hc.
  destruct (existsb _ (handlers (deref σ (logger_of name)))); [eauto |].
  destruct Hc as [msg Hc]. eauto.
Qed.

End WithFormatter.

End LoggingFacts.

Lemma initial_one_handler_per_name : Logging.one_handler_per_name Logging.initial.
Proof.
  intros [|n] name; unfold Logging.handlers_named; simpl; [lia |].
  rewrite lookup_empty. simpl. lia.
Qed.

(** C7: once [setup_logger] has returned for a name, every later call with
    that name returns the same logger object and leaves the root logger
    and the registry as they are (no level change, no new handler); the
    logger then carries exactly one handler tagged with the name, however
    many calls follow.  Every call, returning or raising, keeps "at most
    one handler with a given name per logger", and a call with a level
    that passes the level check and a format the formatter accepts does
    return. *)
Theorem setup_logger_single_handler (format_valid : string -> bool)
    (σ σ1 : Logging.state) (env name : option string) (lvl : option Z)
    (fmt : option string) (r1 : Logging.logger_ref) :
  Logging.one_handler_per_name σ ->
  Logging.setup_logger format_valid env name lvl fmt σ = (σ1, Ok r1) ->
  r1 = Logging.logger_of name
  /\ length (Logging.handlers_named name (Logging.deref σ1 r1)) = 1
  /\ (forall (env2 : option string) (lvl2 : option Z) (fmt2 : option string),
        exists σ2,
          Logging.setup_logger format_valid env2 name lvl2 fmt2 σ1 = (σ2, Ok r1)
          /\ Logging.root σ2 = Logging.root σ1
          /\ Logging.loggerDict σ2 = Logging.loggerDict σ1)
  /\ (forall calls : list (option string * option Z * option string),
        exists σn,
          Logging.setup_logger_calls format_valid name calls σ1
          = (σn, Ok (replicate (length calls) r1))
          /\ Logging.root σn = Logging.root σ1
          /\ Logging.loggerDict σn = Logging.loggerDict σ1
          /\ length (Logging.handlers_named name (Logging.deref σn r1)) = 1)
  /\ (forall (env' name' : option string) (lvl' : option Z) (fmt' : option string)
             (σ' : Logging.state),
        Logging.one_handler_per_name σ' ->
        Logging.one_handler_per_name
          (Logging.setup_logger format_valid env' name' lvl' fmt' σ').1)
  /\ (forall (env' name' : option string) (lvl' : option Z) (fmt' : option string)
             (σ' : Logging.state) (n : Z),
        Logging.checkLevel (Logging.resolve_level env' lvl') = Ok n ->
        format_valid (Logging.format_or_default fmt') = true ->
        exists σ'',
          Logging.setup_logger format_valid env' name' lvl' fmt' σ'
          = (σ'', Ok (Logging.logger_of name'))).
Proof.
  intros Hinv Hrun.
  destruct (LoggingFacts.setup_logger_attached format_valid env name lvl fmt σ σ1 r1 Hrun)
    as [-> Hatt].
  split; [reflexivity |].
  assert (Hone : length (Logging.handlers_named name
                           (Logging.deref σ1 (Logging.logger_of name))) = 1).
  { pose proof (LoggingFacts.setup_logger_invariant format_valid env name lvl fmt σ Hinv)
      as Hinv1.
    rewrite Hrun in Hinv1. simpl in Hinv1.
    specialize (Hinv1 (Logging.logger_of name) name).
    destruct (Logging.handlers_named name (Logging.deref σ1 (Logging.logger_of name)))
      as [|h hs] eqn:E.
    - apply LoggingFacts.existsb_handlers_named in E. congruence.
    - simpl in *. lia. }
  split; [exact Hone |].
  split; [| split; [| split]].
  - intros env2 lvl2 fmt2.
    now apply LoggingFacts.setup_logger_again.
  - intros calls.
    destruct (LoggingFacts.setup_logger_calls_again format_valid name calls σ1 Hatt)
      as (σn & Hcalls & Hroot & Hdict).
    exists σn. repeat split; try assumption.
    rewrite <- Hone. f_equal.
    destruct (Logging.logger_of name); simpl; congruence.
  - intros env' name' lvl' fmt' σ'. apply LoggingFacts.setup_logger_invariant.
  - intros env' name' lvl' fmt' σ' n. apply LoggingFacts.setup_logger_returns.
Qed.

Lemma setup_logger_single_handler_witness :
  let σ1 := (Logging.setup_logger (fun _ => true) None (Some "app") None None
               Logging.initial).1 in
  length (Logging.handlers_named (Some "app") (Logging.deref σ1 (Logging.Named "app"))) = 1
  /\ exists σ2,
       Logging.setup_logger (fun _ => true) (Some "DEBUG") (Some "app") None None σ1
       = (σ2, Ok (Logging.Named "app"))
       /\ Logging.root σ2 = Logging.root σ1
       /\ Logging.loggerDict σ2 = Logging.loggerDict σ1.
Proof.
  intros σ1.
  assert (Hrun : Logging.setup_logger (fun _ => true) None (Some "app") None None
                   Logging.initial = (σ1, Ok (Logging.Named "app")))
    by (vm_compute; reflexivity).
  destruct (setup_logger_single_handler (fun _ => true) Logging.initial σ1
              None (Some "app") None None (Logging.Named "app")
              initial_one_handler_per_name Hrun)
    as (_ & Hone & Hagain & _).
  split; [exact Hone | exact (Hagain (Some "DEBUG") None None)].
Defined.

(** * Further properties *)

(** ** Generated names *)

Module GenNameFacts.
Import PyStr.

Lemma chars_map_chars (f : ascii -> ascii) (s : string) :
  list_ascii_of_string (map_chars f s) = map f (list_ascii_of_string s).
Proof. induction s as [|c s IH]; simpl; congruence. Qed.

Lemma length_map_chars (f : ascii -> ascii) (s : string) :
  String.length (map_chars f s) = String.length s.
Proof. induction s as [|c s IH]; simpl; congruence. Qed.

Lemma length_append (a b : string) :
  String.length (a +:+ b) = String.length a + String.length b.
Proof. induction a as [|c a IH]; simpl; congruence. Qed.

Lemma map_chars_append (f : ascii -> ascii) (a b : string) :
  map_chars f (a +:+ b) = map_chars f a +:+ map_chars f b.
Proof. induction a as [|c a IH]; simpl; congruence. Qed.

(** The shape of every generated name. *)
Lemma gen_name_shape (str_lower : string -> string) (scope : Construct)
    (id : string) (globalize all_lower clean_string : bool) :
  let named := stack_name (Stack_of scope) +:+ "-" +:+ id
                 +:+ stage_suffix globalize (stage (Stack_of scope)) in
  let folded := if all_lower then str_lower named else named in
  gen_name str_lower scope id globalize all_lower clean_string
  = if clean_string then map_chars hyphenate folded else folded.
Proof.
  intros named folded. unfold gen_name.
  assert (Hnamed :
    (if globalize && hasattr_stage (Stack_of scope)
     then match stage (Stack_of scope) with
          | StageLabel s =>
              (stack_name (Stack_of scope) +:+ "-" +:+ id) +:+ ("-" +:+ s)
          | _ => stack_name (Stack_of scope) +:+ "-" +:+ id
          end
     else stack_name (Stack_of scope) +:+ "-" +:+ id) = named).
  { subst named. unfold hasattr_stage, stage_suffix.
    destruct globalize, (stage (Stack_of scope)); simpl;
      rewrite ?PyStrFacts.append_assoc; simpl;
      rewrite ?PyStrFacts.append_empty_r; reflexivity. }
  rewrite Hnamed. subst folded.
  destruct clean_string; [| reflexivity].
  apply PyStrFacts.clean_is_hyphenate.
Qed.

Lemma hyphenate_clean (c : ascii) :
  hyphenate c <> "_"%char /\ hyphenate c <> "."%char.
Proof.
  unfold hyphenate.
  destruct (Ascii.eqb c "_") eqn:E1; simpl; [split; discriminate |].
  destruct (Ascii.eqb c ".") eqn:E2; simpl; [split; discriminate |].
  apply Ascii.eqb_neq in E1, E2. now split.
Qed.

Lemma hyphenate_not_upper (c : ascii) :
  is_upper c = false -> is_upper (hyphenate c) = false.
Proof.
  unfold hyphenate. destruct (Ascii.eqb c "_" || Ascii.eqb c "."); [reflexivity | auto].
Qed.

Lemma lower_ascii_char_not_upper (c : ascii) :
  is_upper (lower_ascii_char c) = false.
Proof.
  destruct c as [[] [] [] [] [] [] [] []]; vm_compute; reflexivity.
Qed.

(** The instance of the examples yields no capital letter. *)
Lemma lower_ascii_no_capital (s : string) (c : ascii) :
  In c (list_ascii_of_string (lower_ascii s)) -> is_upper c = false.
Proof.
  induction s as [|c0 s IH]; simpl; [tauto |].
  intros [<- | Hin]; [apply lower_ascii_char_not_upper | auto].
Qed.

End GenNameFacts.

(** X1: with [clean_string] set, the generated name holds no underscore
    and no period, whatever the stack name, the identifier, the stage,
    the other flags and the lower-casing are. *)
Theorem gen_name_clean_has_no_underscore_or_period
    (str_lower : string -> string) (scope : Construct)
    (id : string) (globalize all_lower : bool) (c : ascii) :
  In c (list_ascii_of_string (gen_name str_lower scope id globalize all_lower true)) ->
  c <> "_"%char /\ c <> "."%char.
Proof.
  rewrite GenNameFacts.gen_name_shape. cbv zeta.
  rewrite GenNameFacts.chars_map_chars. intros Hin.
  apply in_map_iff in Hin as (c0 & <- & _).
  apply GenNameFacts.hyphenate_clean.
Qed.

Lemma gen_name_clean_has_no_underscore_or_period_witness :
  ("-"%char <> "_"%char /\ "-"%char <> "."%char).
Proof.
  apply (gen_name_clean_has_no_underscore_or_period (fun s => s)
           {| Stack_of := {| stack_name := "a_b"; stage := NoStageAttr |} |}
           "c.d" false false "-"%char).
  vm_compute. tauto.
Defined.

(** X2: [str.lower] never yields one of the letters A-Z; given that, with
    [all_lower] set the generated name holds no ASCII capital letter,
    with or without cleaning. *)
Theorem gen_name_lower_has_no_capital (str_lower : string -> string)
    (scope : Construct) (id : string) (globalize clean_string : bool) (c : ascii) :
  (forall (s : string) (x : ascii),
     In x (list_ascii_of_string (str_lower s)) -> is_upper x = false) ->
  In c (list_ascii_of_string (gen_name str_lower scope id globalize true clean_string)) ->
  is_upper c = false.
Proof.
  intros Hlower. rewrite GenNameFacts.gen_name_shape. cbv zeta.
  destruct clean_string.
  - rewrite GenNameFacts.chars_map_chars. intros Hin.
    apply in_map_iff in Hin as (c0 & <- & Hin).
    apply GenNameFacts.hyphenate_not_upper. eapply Hlower, Hin.
  - apply Hlower.
Qed.

Lemma gen_name_lower_has_no_capital_witness : is_upper "s"%char = false.
Proof.
  apply (gen_name_lower_has_no_capital PyStr.lower_ascii
           {| Stack_of := {| stack_name := "S"; stage := NoStageAttr |} |}
           "Id" false false "s"%char).
  - exact GenNameFacts.lower_ascii_no_capital.
  - vm_compute. tauto.
Defined.

(** X3: cleaning never changes the length of the name: the name is as
    long as the text before cleaning, and when [all_lower] is not set
    that is the length of the stack name, one hyphen, the identifier and
    the stage suffix. *)
Theorem gen_name_clean_keeps_length (str_lower : string -> string)
    (scope : Construct) (id : string) (globalize all_lower clean_string : bool) :
  String.length (gen_name str_lower scope id globalize all_lower clean_string)
  = String.length (gen_name str_lower scope id globalize all_lower false)
  /\ String.length (gen_name str_lower scope id globalize false clean_string)
     = String.length (stack_name (Stack_of scope)) + 1 + String.length id
       + String.length (stage_suffix globalize (stage (Stack_of scope))).
Proof.
  rewrite !GenNameFacts.gen_name_shape. cbv zeta. split.
  - destruct clean_string; [apply GenNameFacts.length_map_chars | reflexivity].
  - destruct clean_string;
      rewrite ?GenNameFacts.length_map_chars, !GenNameFacts.length_append;
      simpl; lia.
Qed.

(** X4: cleaning merges names: without [all_lower], two identifiers that
    agree once their underscores and periods are hyphens get the same
    cleaned name. *)
Theorem gen_name_clean_collides (str_lower : string -> string)
    (scope : Construct) (id1 id2 : string) (globalize : bool) :
  PyStr.map_chars hyphenate id1 = PyStr.map_chars hyphenate id2 ->
  gen_name str_lower scope id1 globalize false true
  = gen_name str_lower scope id2 globalize false true.
Proof.
  intros E. rewrite !GenNameFacts.gen_name_shape. cbv zeta.
  rewrite !GenNameFacts.map_chars_append. now rewrite E.
Qed.

Lemma gen_name_clean_collides_witness :
  gen_name (fun s => s)
    {| Stack_of := {| stack_name := "S"; stage := NoStageAttr |} |}
    "a_b" false false true
  = gen_name (fun s => s)
      {| Stack_of := {| stack_name := "S"; stage := NoStageAttr |} |}
      "a.b" false false true.
Proof.
  apply (gen_name_clean_collides (fun s => s) _ "a_b" "a.b" false). reflexivity.
Defined.

(** ** Parameter aggregation: effects and edge cases *)

Module GetParamsEdge.
Import PyDict PyDictFacts HeapFacts.

(** Whatever the call does, the heap it leaves is the old one, or the old
    one with the returned dictionary added at a fresh location; a raising
    call leaves the old heap. *)
Lemma get_params_heap (h : heap) (allvars : loc) :
  (exists e, get_params allvars h = (h, Raise e))
  \/ (exists res, get_params allvars h
                  = (<[fresh (dom h) := res]> h, Ok (fresh (dom h)))).
Proof.
  unfold get_params, items, truthy, unpack_mapping, new_dict. unfold_M.
  destruct (h !! allvars) as [d|]; [| eauto].
  simpl. destruct (is_truthy h (default PNone (get d "self"))); [| eauto].
  simpl. destruct (contains d "kwargs"); [| eauto].
  simpl. destruct (is_truthy h (default PNone (get d "kwargs"))); [| eauto].
  destruct (default PNone (get d "kwargs")) as [| | |l|]; simpl; eauto.
  destruct (h !! l); eauto.
Qed.

Lemma get_params_falsy_kwargs (h : heap) (allvars : loc) (d : pydict)
    (self v : pyval) :
  h !! allvars = Some d ->
  get d "self" = Some self -> is_truthy h self = true ->
  get d "kwargs" = Some v -> is_truthy h v = false ->
  get_params allvars h
  = (<[fresh (dom h) :=
         update [] (update [] (filter (fun kv : string * pyval =>
           is_keyword_only (init_parameters (type_of self)) kv.1 = true) d))]> h,
     Ok (fresh (dom h))).
Proof.
  intros Hl Hself Ht Hkw Hf.
  unfold get_params, items, truthy, new_dict. unfold_M.
  rewrite Hl. simpl. rewrite Hself. simpl. rewrite Ht.
  unfold contains. rewrite Hkw. simpl. rewrite Hf. reflexivity.
Qed.

End GetParamsEdge.

(** X5: [get_params] never changes a dictionary that exists: every
    location of the heap holds afterwards what it held before, whether the
    call returns or raises, and a raising call leaves the heap as it was. *)
Theorem get_params_keeps_heap (h : heap) (allvars l : loc) :
  l ∈ dom h ->
  (get_params allvars h).1 !! l = h !! l
  /\ forall e, (get_params allvars h).2 = Raise e -> (get_params allvars h).1 = h.
Proof.
  intros Hin.
  destruct (GetParamsEdge.get_params_heap h allvars) as [[e ->] | [res ->]]; simpl.
  - split; [reflexivity | intros _ _; reflexivity].
  - split; [| intros e; discriminate].
    apply lookup_insert_ne. intros <-. now apply is_fresh in Hin.
Qed.

Lemma get_params_keeps_heap_witness :
  (get_params 1 example_locals).1 !! 0 = example_locals !! 0.
Proof.
  apply (get_params_keeps_heap example_locals 1 0).
  apply (bool_decide_unpack _). vm_compute. exact I.
Defined.

(** X6: a [kwargs] entry that is false as a boolean ([None], an empty
    dictionary, ...) counts as an empty catch-all: the result holds exactly
    the snapshot entries named by keyword-only parameters. *)
Theorem get_params_falsy_kwargs_is_empty (h : heap) (allvars : loc)
    (d : pydict) (self v : pyval) :
  h !! allvars = Some d -> PyDict.ok d ->
  PyDict.get d "self" = Some self -> is_truthy h self = true ->
  PyDict.get d "kwargs" = Some v -> is_truthy h v = false ->
  exists (out : loc) (res : pydict),
    get_params allvars h = (<[out := res]> h, Ok out)
    /\ h !! out = None
    /\ forall k : string,
         PyDict.get res k
         = if is_keyword_only (init_parameters (type_of self)) k
           then PyDict.get d k else None.
Proof.
  intros Hl Hok Hself Ht Hkw Hf. eexists _, _.
  split; [exact (GetParamsEdge.get_params_falsy_kwargs h allvars d self v
                   Hl Hself Ht Hkw Hf) |].
  split; [apply HeapFacts.fresh_loc_None |].
  intros k. now apply GetParamsFacts.get_declared.
Qed.

Lemma get_params_falsy_kwargs_is_empty_witness :
  exists (out : loc) (res : pydict),
    get_params 0
      {[ 0 := [("self", PObj {| obj_class := foo; obj_bool := true |});
               ("c", PInt 3); ("kwargs", PNone)] ]}
    = (<[out := res]>
         {[ 0 := [("self", PObj {| obj_class := foo; obj_bool := true |});
                  ("c", PInt 3); ("kwargs", PNone)] ]}, Ok out)
    /\ PyDict.get res "c" = Some (PInt 3)
    /\ PyDict.get res "kwargs" = None.
Proof.
  destruct (get_params_falsy_kwargs_is_empty
              {[ 0 := [("self", PObj {| obj_class := foo; obj_bool := true |});
                       ("c", PInt 3); ("kwargs", PNone)] ]} 0
              [("self", PObj {| obj_class := foo; obj_bool := true |});
               ("c", PInt 3); ("kwargs", PNone)]
              (PObj {| obj_class := foo; obj_bool := true |}) PNone)
    as (out & res & Hrun & _ & Hget).
  - reflexivity.
  - unfold PyDict.ok. apply (bool_decide_unpack _). vm_compute. exact I.
  - reflexivity.
  - reflexivity.
  - reflexivity.
  - reflexivity.
  - exists out, res. split; [exact Hrun |]. rewrite !Hget. split; reflexivity.
Defined.

(** X7: a [kwargs] entry that is true as a boolean but is a number or a
    string, not a dictionary, makes the [**kwargs] unpacking raise
    [TypeError]; nothing is allocated. *)
Theorem get_params_rejects_non_mapping_kwargs (h : heap) (allvars : loc)
    (d : pydict) (self v : pyval) :
  h !! allvars = Some d ->
  PyDict.get d "self" = Some self -> is_truthy h self = true ->
  PyDict.get d "kwargs" = Some v -> is_truthy h v = true ->
  (exists z, v = PInt z) \/ (exists s, v = PStr s) ->
  get_params allvars h = (h, Raise TypeError).
Proof.
  intros Hl Hself Ht Hkw Htv Hv.
  unfold get_params, items, truthy, unpack_mapping, new_dict.
  HeapFacts.unfold_M.
  rewrite Hl. simpl. rewrite Hself. simpl. rewrite Ht.
  unfold PyDict.contains. rewrite Hkw. simpl. rewrite Htv.
  destruct Hv as [[z ->] | [s ->]]; reflexivity.
Qed.

Lemma get_params_rejects_non_mapping_kwargs_witness :
  get_params 0
    {[ 0 := [("self", PObj {| obj_class := foo; obj_bool := true |});
             ("kwargs", PStr "x")] ]}
  = ({[ 0 := [("self", PObj {| obj_class := foo; obj_bool := true |});
              ("kwargs", PStr "x")] ]}, Raise TypeError).
Proof.
  apply (get_params_rejects_non_mapping_kwargs _ 0
           [("self", PObj {| obj_class := foo; obj_bool := true |});
            ("kwargs", PStr "x")]
           (PObj {| obj_class := foo; obj_bool := true |}) (PStr "x"));
    try reflexivity.
  right. now exists "x".
Defined.

(** ** Prefix filtering: round trip, size and composition *)

Module FilterFacts.
Import PyStr PyStrFacts PyDict PyDictFacts HeapFacts.

Lemma drop_chars_append (p t : string) :
  drop_chars (String.length p) (p +:+ t) = t.
Proof. induction p as [|a p IH]; simpl; [now destruct t | exact IH]. Qed.

Lemma startswith_append (p t : string) : startswith (p +:+ t) p = true.
Proof.
  induction p as [|a p IH]; simpl; [apply startswith_empty |].
  now rewrite Ascii.eqb_refl, IH.
Qed.

Lemma drop_chars_empty (n : nat) : drop_chars n "" = "".
Proof. now destruct n. Qed.

Lemma drop_chars_add (n m : nat) (k : string) :
  drop_chars (n + m) k = drop_chars m (drop_chars n k).
Proof.
  revert k. induction n as [|n IH]; intros k; simpl; [reflexivity |].
  destruct k as [|c k]; [now rewrite drop_chars_empty | apply IH].
Qed.

Lemma startswith_two (k p q : string) :
  startswith k (p +:+ q)
  = startswith k p && startswith (drop_chars (String.length p) k) q.
Proof.
  revert k. induction p as [|a p IH]; intros k; simpl.
  - now rewrite startswith_empty.
  - destruct k as [|b k]; simpl; [reflexivity |].
    rewrite IH. now rewrite andb_assoc.
Qed.

(** Looking a stripped key up is looking the full key up in the input. *)
Lemma get_strip_prefix_full (p : string) (d : pydict) (k' : string) :
  ok d -> get (strip_prefix p d) k' = get d (p +:+ k').
Proof.
  intros Hok. destruct (get d (p +:+ k')) as [v|] eqn:E.
  - apply get_strip_prefix; [assumption |]. exists (p +:+ k').
    repeat split; [assumption | apply startswith_append |].
    rewrite replace_prefix_once by apply startswith_append.
    now rewrite drop_chars_append.
  - destruct (get (strip_prefix p d) k') as [v|] eqn:E'; [| reflexivity].
    apply get_strip_prefix in E' as (k & Hget & Hp & ->); [| assumption].
    rewrite replace_prefix_once in E by assumption.
    rewrite <- (startswith_split _ _ Hp) in E. congruence.
Qed.

Lemma strip_prefix_twice (p q : string) (d : pydict) :
  strip_prefix q (strip_prefix p d) = strip_prefix (p +:+ q) d.
Proof.
  induction d as [|[k v] d IH]; [reflexivity |].
  rewrite !strip_prefix_cons, startswith_two.
  destruct (startswith k p); simpl; [| exact IH].
  rewrite strip_prefix_cons, IH.
  rewrite GenNameFacts.length_append, drop_chars_add. reflexivity.
Qed.

(** Putting the prefix back on the keys of the result gives the keys of
    the input that start with it, in their order. *)
Lemma with_prefix_keys (p : string) (d : pydict) :
  with_prefix p (keys (strip_prefix p d))
  = filter (fun k => startswith k p = true) (keys d).
Proof.
  unfold with_prefix, keys.
  induction d as [|[k v] d IH]; [reflexivity |].
  rewrite strip_prefix_cons, (fmap_cons fst), filter_cons. cbn [fst].
  destruct (startswith k p) eqn:Hk.
  - rewrite !fmap_cons. cbn [fst].
    destruct (decide (true = true)); [| congruence].
    rewrite IH. f_equal. symmetry. now apply startswith_split.
  - destruct (decide (false = true)); [discriminate | exact IH].
Qed.

End FilterFacts.

(** X8: an entry is found in the result of [filter_kwargs(d, p)] under a
    key exactly when [d] holds it under the prefix followed by that key:
    putting the prefix back leads to the original entry. *)
Theorem filter_kwargs_round_trip (h : heap) (kwargs : loc) (d : pydict)
    (p : string) :
  h !! kwargs = Some d -> PyDict.ok d ->
  exists (out : loc) (res : pydict),
    filter_kwargs kwargs p h = (<[out := res]> h, Ok out)
    /\ forall k' : string, PyDict.get res k' = PyDict.get d (p +:+ k').
Proof.
  intros Hl Hok. exists (fresh (dom h)), (strip_prefix p d).
  split; [now apply HeapFacts.filter_kwargs_run |].
  intros k'. now apply FilterFacts.get_strip_prefix_full.
Qed.

Lemma filter_kwargs_round_trip_witness :
  exists (out : loc) (res : pydict),
    filter_kwargs 0 "a_" {[ 0 := example_kwargs ]}
    = (<[out := res]> {[ 0 := example_kwargs ]}, Ok out)
    /\ PyDict.get res "c" = Some (PInt 2)
    /\ PyDict.get res "a_c" = None.
Proof.
  destruct (filter_kwargs_round_trip {[ 0 := example_kwargs ]} 0 example_kwargs "a_"
              (lookup_singleton_eq _ _) example_kwargs_ok)
    as (out & res & Hrun & Hget).
  exists out, res. split; [exact Hrun |]. rewrite !Hget. split; reflexivity.
Defined.

(** X9: the comprehension of [filter_kwargs] never overwrites an entry:
    the result lists the matching entries of the input in the input's
    order, one entry per matching key, so it is never longer than the
    input. *)
Theorem filter_kwargs_keeps_order (h : heap) (kwargs : loc) (d : pydict)
    (p : string) :
  h !! kwargs = Some d -> PyDict.ok d ->
  exists (out : loc) (res : pydict),
    filter_kwargs kwargs p h = (<[out := res]> h, Ok out)
    /\ with_prefix p (PyDict.keys res)
       = filter (fun k => PyStr.startswith k p = true) (PyDict.keys d)
    /\ res.*2 = (filter (fun kv : string * pyval =>
                           PyStr.startswith kv.1 p = true) d).*2
    /\ length res <= length d.
Proof.
  intros Hl Hok. exists (fresh (dom h)), (strip_prefix p d).
  split; [now apply HeapFacts.filter_kwargs_run |].
  split; [apply FilterFacts.with_prefix_keys |].
  unfold strip_prefix. split.
  - rewrite <- list_fmap_compose. reflexivity.
  - rewrite length_fmap. apply length_filter.
Qed.

Lemma filter_kwargs_keeps_order_witness :
  exists (out : loc) (res : pydict),
    filter_kwargs 0 "a_" {[ 0 := example_kwargs ]}
    = (<[out := res]> {[ 0 := example_kwargs ]}, Ok out)
    /\ with_prefix "a_" (PyDict.keys res) = ["a_b"; "a_c"]
    /\ length res <= 3.
Proof.
  destruct (filter_kwargs_keeps_order {[ 0 := example_kwargs ]} 0 example_kwargs "a_"
              (lookup_singleton_eq _ _) example_kwargs_ok)
    as (out & res & Hrun & Hkeys & _ & Hlen).
  exists out, res. split; [exact Hrun |]. split; [exact Hkeys | exact Hlen].
Defined.

(** X10: filtering by [p] and then filtering the result by [q] gives the
    entries that filtering the input by [p] followed by [q] gives. *)
Theorem filter_kwargs_twice (h : heap) (kwargs : loc) (d : pydict)
    (p q : string) :
  h !! kwargs = Some d -> PyDict.ok d ->
  exists (h1 h2 h3 : heap) (out1 out2 out3 : loc) (res : pydict),
    filter_kwargs kwargs p h = (h1, Ok out1)
    /\ filter_kwargs out1 q h1 = (h2, Ok out2)
    /\ filter_kwargs kwargs (p +:+ q) h = (h3, Ok out3)
    /\ h2 !! out2 = Some res
    /\ h3 !! out3 = Some res.
Proof.
  intros Hl Hok.
  pose proof (HeapFacts.filter_kwargs_run h kwargs d p Hl Hok) as H1.
  pose proof (HeapFacts.filter_kwargs_run (<[fresh (dom h) := strip_prefix p d]> h)
                (fresh (dom h)) (strip_prefix p d) q
                (lookup_insert_eq _ _ _)
                (HeapFacts.ok_strip_prefix p d Hok)) as H2.
  pose proof (HeapFacts.filter_kwargs_run h kwargs d (p +:+ q) Hl Hok) as H3.
  eexists _, _, _, _, _, _, _.
  split; [exact H1 |]. split; [exact H2 |]. split; [exact H3 |].
  split; [apply lookup_insert_eq |].
  rewrite lookup_insert_eq. now rewrite FilterFacts.strip_prefix_twice.
Qed.

Lemma filter_kwargs_twice_witness :
  exists (h1 h2 h3 : heap) (out1 out2 out3 : loc) (res : pydict),
    filter_kwargs 0 "a" {[ 0 := example_kwargs ]} = (h1, Ok out1)
    /\ filter_kwargs out1 "_" h1 = (h2, Ok out2)
    /\ filter_kwargs 0 "a_" {[ 0 := example_kwargs ]} = (h3, Ok out3)
    /\ h2 !! out2 = Some res
    /\ h3 !! out3 = Some res.
Proof.
  exact (filter_kwargs_twice {[ 0 := example_kwargs ]} 0 example_kwargs "a" "_"
           (lookup_singleton_eq _ _) example_kwargs_ok).
Defined.

(** X11: after [sub = filter_kwargs(d, p)], removing from [d] the keys of
    [sub] with the prefix put back succeeds, and leaves in [d] exactly
    the entries whose key does not start with [p]. *)
Theorem filter_then_remove (h : heap) (kwargs : loc) (d : pydict) (p : string) :
  h !! kwargs = Some d -> PyDict.ok d ->
  exists (h1 : heap) (out : loc) (res d' : pydict),
    filter_kwargs kwargs p h = (h1, Ok out)
    /\ h1 !! out = Some res
    /\ remove_params kwargs (with_prefix p (PyDict.keys res)) h1
       = (<[kwargs := d']> h1, Ok tt)
    /\ forall k : string,
         PyDict.get d' k = if PyStr.startswith k p then None else PyDict.get d k.
Proof.
  intros Hl Hok.
  pose proof (HeapFacts.filter_kwargs_run h kwargs d p Hl Hok) as H1.
  set (h1 := <[fresh (dom h) := strip_prefix p d]> h) in *.
  set (ps := with_prefix p (PyDict.keys (strip_prefix p d))).
  assert (Hps : ps = filter (fun k => PyStr.startswith k p = true) (PyDict.keys d))
    by apply FilterFacts.with_prefix_keys.
  assert (Hl1 : h1 !! kwargs = Some d).
  { subst h1. rewrite lookup_insert_ne; [assumption |].
    intros E. pose proof (HeapFacts.fresh_loc_None h) as Hf.
    rewrite E in Hf. congruence. }
  destruct (RemoveFacts.list_comp_pop_all kwargs ps h1 d Hl1 Hok) as [vs Hvs].
  { rewrite Hps. now apply NoDup_filter. }
  { intros k Hk. rewrite Hps in Hk. now apply list_elem_of_filter in Hk as [_ ?]. }
  exists h1, (fresh (dom h)), (strip_prefix p d), (remove_all d ps).
  split; [exact H1 |].
  split; [apply lookup_insert_eq |].
  split; [fold ps; rewrite RemoveFacts.remove_params_unfold; now rewrite Hvs |].
  intros k. rewrite RemoveFacts.get_remove_all by assumption. rewrite Hps.
  destruct (PyStr.startswith k p) eqn:Hk.
  - destruct (decide (k ∈ PyDict.keys d)) as [Hin | Hout].
    + rewrite bool_decide_eq_true_2; [reflexivity |].
      apply list_elem_of_filter. now split.
    + apply PyDictFacts.get_None in Hout. rewrite Hout.
      now destruct (bool_decide _).
  - rewrite bool_decide_eq_false_2; [reflexivity |].
    intros Hin. apply list_elem_of_filter in Hin as [Hin _]. congruence.
Qed.

Lemma filter_then_remove_witness :
  exists (h1 : heap) (out : loc) (res d' : pydict),
    filter_kwargs 0 "a_" {[ 0 := example_kwargs ]} = (h1, Ok out)
    /\ h1 !! out = Some res
    /\ remove_params 0 (with_prefix "a_" (PyDict.keys res)) h1
       = (<[0 := d']> h1, Ok tt)
    /\ forall k : string,
         PyDict.get d' k
         = if PyStr.startswith k "a_" then None else PyDict.get example_kwargs k.
Proof.
  exact (filter_then_remove {[ 0 := example_kwargs ]} 0 example_kwargs "a_"
           (lookup_singleton_eq _ _) example_kwargs_ok).
Defined.

(** ** Key removal: order, size, frame and repetition *)

Module RemoveMore.
Import PyDict PyDictFacts HeapFacts RemoveFacts.

Lemma filter_all (P : string * pyval -> Prop) `{!forall x, Decision (P x)}
    (d : pydict) :
  (forall kv, kv ∈ d -> P kv) -> filter P d = d.
Proof.
  induction d as [|kv d IH]; intros Hall; [reflexivity |].
  rewrite filter_cons_True by (apply Hall, elem_of_cons; now left).
  f_equal. apply IH. intros x Hx. apply Hall, elem_of_cons. now right.
Qed.

Lemma remove_is_filter (d : pydict) (k : string) :
  ok d -> remove d k = filter (fun kv : string * pyval => kv.1 <> k) d.
Proof.
  unfold ok, keys. induction d as [|[k0 v0] d IH]; intros Hok; [reflexivity |].
  simpl in Hok. apply NoDup_cons in Hok as [Hk0 Hok]. simpl.
  destruct (String.eqb k0 k) eqn:E.
  - apply String.eqb_eq in E. subst k0.
    rewrite filter_cons_False by (simpl; tauto).
    symmetry. apply filter_all. intros [k1 v1] Hin. simpl. intros ->.
    apply Hk0. apply list_elem_of_fmap. exists (k, v1). auto.
  - apply String.eqb_neq in E. rewrite filter_cons_True by exact E.
    f_equal. now apply IH.
Qed.

Lemma remove_all_is_without (ps : list string) :
  forall d : pydict, ok d -> remove_all d ps = without_keys ps d.
Proof.
  unfold remove_all, without_keys.
  induction ps as [|k ps IH]; intros d Hok; cbn [fold_left].
  - symmetry. apply filter_all. intros kv _. apply not_elem_of_nil.
  - rewrite IH by now apply ok_remove.
    rewrite remove_is_filter by assumption.
    rewrite list_filter_filter. apply list_filter_iff.
    intros [k1 v1]. simpl. rewrite not_elem_of_cons. tauto.
Qed.

Lemma length_remove (d : pydict) (k : string) :
  k ∈ keys d -> S (length (remove d k)) = length d.
Proof.
  unfold keys. induction d as [|[k0 v0] d IH]; intros Hin.
  - now apply elem_of_nil in Hin.
  - simpl. destruct (String.eqb k0 k) eqn:E; [reflexivity |].
    apply String.eqb_neq in E. simpl in Hin.
    apply elem_of_cons in Hin as [-> | Hin]; [congruence |].
    simpl. now rewrite IH.
Qed.

Lemma length_remove_all (ps : list string) :
  forall d : pydict,
    ok d -> NoDup ps -> (forall k, k ∈ ps -> k ∈ keys d) ->
    length (remove_all d ps) + length ps = length d.
Proof.
  unfold remove_all.
  induction ps as [|k ps IH]; intros d Hok Hnd Hin; cbn [fold_left length].
  - lia.
  - apply NoDup_cons in Hnd as [Hk Hnd].
    rewrite <- (length_remove d k) by (apply Hin, elem_of_cons; now left).
    rewrite <- (IH (remove d k)); [lia | now apply ok_remove | assumption |].
    intros x Hx. apply keys_remove; [assumption |]. split.
    + apply Hin, elem_of_cons. now right.
    + intros ->. contradiction.
Qed.

(** Popping at [l] never touches another location. *)
Lemma list_comp_pop_frame (l l' : loc) (ps : list string) :
  l' <> l ->
  forall h : heap, (list_comp (dict_pop l) ps h).1 !! l' = h !! l'.
Proof.
  intros Hne. induction ps as [|p ps IH]; intros h; simpl; [reflexivity |].
  unfold_M. unfold dict_pop at 1.
  destruct (h !! l) as [d|] eqn:Hl; [| reflexivity].
  destruct (pop d p) as [[v d']|]; [| reflexivity].
  specialize (IH (<[l := d']> h)).
  destruct (list_comp (dict_pop l) ps (<[l := d']> h)) as [h' [vs | e]];
    simpl in *; rewrite IH; now apply lookup_insert_ne.
Qed.

(** A run over a concatenation is the two runs in sequence. *)
Lemma list_comp_pop_app (l : loc) (ps1 ps2 : list string) :
  forall h : heap,
    list_comp (dict_pop l) (ps1 ++ ps2) h
    = match list_comp (dict_pop l) ps1 h with
      | (h', Ok vs1) =>
          match list_comp (dict_pop l) ps2 h' with
          | (h'', Ok vs2) => (h'', Ok (vs1 ++ vs2))
          | (h'', Raise e) => (h'', Raise e)
          end
      | (h', Raise e) => (h', Raise e)
      end.
Proof.
  induction ps1 as [|p ps1 IH]; intros h; simpl.
  - unfold ret. now destruct (list_comp (dict_pop l) ps2 h) as [h' [vs | e]].
  - unfold_M. destruct (dict_pop l p h) as [h1 [v | e]]; [| reflexivity].
    rewrite IH.
    destruct (list_comp (dict_pop l) ps1 h1) as [h2 [vs1 | e]]; [| reflexivity].
    now destruct (list_comp (dict_pop l) ps2 h2) as [h3 [vs2 | e]].
Qed.

(** The dictionary a run leaves: the input without the keys popped so
    far, which are all the keys or the keys before the first missing one. *)
Lemma remove_params_leaves (h : heap) (l : loc) (d : pydict) (ps : list string) :
  h !! l = Some d -> ok d ->
  exists n, (remove_params l ps h).1 = <[l := remove_all d (take n ps)]> h.
Proof.
  intros Hl Hok. rewrite remove_params_unfold.
  destruct (first_absent d ps (length ps)) as [Hnone | (i & _ & Habs & Hmin)].
  - destruct (none_absent d ps) as [Hnd Hin].
    { intros i. destruct (decide (i < length ps)) as [Hlt | Hge]; [auto |].
      intros (k & Hk & _). apply lookup_lt_Some in Hk. lia. }
    destruct (list_comp_pop_all l ps h d Hl Hok Hnd Hin) as [vs ->].
    exists (length ps). now rewrite take_ge by lia.
  - destruct Habs as (k & Hk & Hbad).
    rewrite (list_comp_pop_stops l i ps h d k Hl Hok Hk Hbad Hmin).
    now exists i.
Qed.

End RemoveMore.

(** X12: when the listed keys are distinct and present, the dictionary is
    left with its other entries in their original order, and the order in
    which the keys are listed makes no difference. *)
Theorem remove_params_order_free (h : heap) (kwargs : loc) (d : pydict)
    (ps ps' : list string) :
  h !! kwargs = Some d -> PyDict.ok d ->
  NoDup ps -> (forall k, k ∈ ps -> k ∈ PyDict.keys d) ->
  ps' ≡ₚ ps ->
  remove_params kwargs ps h = (<[kwargs := without_keys ps d]> h, Ok tt)
  /\ remove_params kwargs ps' h = remove_params kwargs ps h.
Proof.
  intros Hl Hok Hnd Hin Hperm.
  assert (Hrun : forall qs, NoDup qs -> (forall k, k ∈ qs -> k ∈ PyDict.keys d) ->
            remove_params kwargs qs h = (<[kwargs := without_keys qs d]> h, Ok tt)).
  { intros qs Hq1 Hq2.
    destruct (RemoveFacts.list_comp_pop_all kwargs qs h d Hl Hok Hq1 Hq2) as [vs Hvs].
    rewrite RemoveFacts.remove_params_unfold, Hvs.
    now rewrite RemoveMore.remove_all_is_without. }
  split; [now apply Hrun |].
  rewrite (Hrun ps) by assumption.
  rewrite (Hrun ps').
  - do 2 f_equal. unfold without_keys. apply list_filter_iff.
    intros kv. now rewrite Hperm.
  - now rewrite Hperm.
  - intros k Hk. apply Hin. now rewrite <- Hperm.
Qed.

Lemma remove_params_order_free_witness :
  remove_params 0 ["b_abc"; "a_b"] {[ 0 := example_kwargs ]}
  = remove_params 0 ["a_b"; "b_abc"] {[ 0 := example_kwargs ]}.
Proof.
  refine (proj2 (remove_params_order_free {[ 0 := example_kwargs ]} 0 example_kwargs
                   ["a_b"; "b_abc"] ["b_abc"; "a_b"] _ _ _ _ _)).
  - reflexivity.
  - exact example_kwargs_ok.
  - apply (bool_decide_unpack _). vm_compute. exact I.
  - intros k Hk. apply (bool_decide_unpack _).
    repeat (apply elem_of_cons in Hk as [-> | Hk]; [vm_compute; exact I |]).
    now apply elem_of_nil in Hk.
  - apply perm_swap.
Defined.

(** X13: a successful [remove_params] shrinks the dictionary by exactly
    the number of listed keys. *)
Theorem remove_params_size (h : heap) (kwargs : loc) (d : pydict)
    (ps : list string) :
  h !! kwargs = Some d -> PyDict.ok d ->
  NoDup ps -> (forall k, k ∈ ps -> k ∈ PyDict.keys d) ->
  exists d' : pydict,
    remove_params kwargs ps h = (<[kwargs := d']> h, Ok tt)
    /\ length d' + length ps = length d.
Proof.
  intros Hl Hok Hnd Hin.
  destruct (RemoveFacts.list_comp_pop_all kwargs ps h d Hl Hok Hnd Hin) as [vs Hvs].
  exists (remove_all d ps). split.
  - rewrite RemoveFacts.remove_params_unfold. now rewrite Hvs.
  - now apply RemoveMore.length_remove_all.
Qed.

Lemma remove_params_size_witness :
  exists d' : pydict,
    remove_params 0 ["a_b"; "b_abc"] {[ 0 := example_kwargs ]}
    = (<[0 := d']> {[ 0 := example_kwargs ]}, Ok tt)
    /\ length d' + 2 = 3.
Proof.
  refine (remove_params_size {[ 0 := example_kwargs ]} 0 example_kwargs
            ["a_b"; "b_abc"] _ _ _ _).
  - reflexivity.
  - exact example_kwargs_ok.
  - apply (bool_decide_unpack _). vm_compute. exact I.
  - intros k Hk. apply (bool_decide_unpack _).
    repeat (apply elem_of_cons in Hk as [-> | Hk]; [vm_compute; exact I |]).
    now apply elem_of_nil in Hk.
Defined.

(** X14: whether it returns or raises, [remove_params] touches no other
    dictionary, and in the one it works on it only deletes: every entry
    that is left is an entry of the input, with its value. *)
Theorem remove_params_only_deletes (h : heap) (kwargs : loc) (d : pydict)
    (ps : list string) :
  h !! kwargs = Some d -> PyDict.ok d ->
  (forall l : loc, l <> kwargs -> (remove_params kwargs ps h).1 !! l = h !! l)
  /\ exists d' : pydict,
       (remove_params kwargs ps h).1 !! kwargs = Some d'
       /\ PyDict.ok d'
       /\ forall (k : string) (v : pyval),
            PyDict.get d' k = Some v -> PyDict.get d k = Some v.
Proof.
  intros Hl Hok. split.
  - intros l Hne. rewrite RemoveFacts.remove_params_unfold.
    pose proof (RemoveMore.list_comp_pop_frame kwargs l ps Hne h) as Hf.
    now destruct (list_comp (dict_pop kwargs) ps h) as [h' [vs | e]].
  - destruct (RemoveMore.remove_params_leaves h kwargs d ps Hl Hok) as [n ->].
    exists (remove_all d (take n ps)).
    split; [apply lookup_insert_eq |].
    split; [now apply RemoveFacts.ok_remove_all |].
    intros k v. rewrite RemoveFacts.get_remove_all by assumption.
    now destruct (bool_decide (k ∈ take n ps)).
Qed.

Lemma remove_params_only_deletes_witness :
  exists d' : pydict,
    (remove_params 0 ["a_b"; "zz"; "a_c"] {[ 0 := example_kwargs ]}).1 !! 0 = Some d'
    /\ PyDict.ok d'
    /\ forall (k : string) (v : pyval),
         PyDict.get d' k = Some v -> PyDict.get example_kwargs k = Some v.
Proof.
  exact (proj2 (remove_params_only_deletes {[ 0 := example_kwargs ]} 0 example_kwargs
                  ["a_b"; "zz"; "a_c"] (lookup_singleton_eq _ _) example_kwargs_ok)).
Defined.

(** X15: [remove_params] cannot be repeated: after a successful call with
    at least one key, the same call raises [KeyError] for the first key
    and changes nothing. *)
Theorem remove_params_twice_raises (h : heap) (kwargs : loc) (d : pydict)
    (k : string) (ps : list string) :
  h !! kwargs = Some d -> PyDict.ok d ->
  NoDup (k :: ps) -> (forall x, x ∈ k :: ps -> x ∈ PyDict.keys d) ->
  exists h1 : heap,
    remove_params kwargs (k :: ps) h = (h1, Ok tt)
    /\ remove_params kwargs (k :: ps) h1 = (h1, Raise (KeyError k)).
Proof.
  intros Hl Hok Hnd Hin.
  destruct (RemoveFacts.list_comp_pop_all kwargs (k :: ps) h d Hl Hok Hnd Hin)
    as [vs Hvs].
  exists (<[kwargs := remove_all d (k :: ps)]> h). split.
  - rewrite RemoveFacts.remove_params_unfold. now rewrite Hvs.
  - rewrite RemoveFacts.remove_params_unfold. simpl. HeapFacts.unfold_M.
    rewrite (RemoveFacts.dict_pop_absent _ kwargs (remove_all d (k :: ps)) k).
    + reflexivity.
    + apply lookup_insert_eq.
    + apply PyDictFacts.get_None.
      rewrite RemoveFacts.get_remove_all by assumption.
      rewrite bool_decide_eq_true_2; [reflexivity |]. apply elem_of_cons. now left.
Qed.

Lemma remove_params_twice_raises_witness :
  exists h1 : heap,
    remove_params 0 ["a_b"] {[ 0 := example_kwargs ]} = (h1, Ok tt)
    /\ remove_params 0 ["a_b"] h1 = (h1, Raise (KeyError "a_b")).
Proof.
  refine (remove_params_twice_raises {[ 0 := example_kwargs ]} 0 example_kwargs
            "a_b" [] _ _ _ _).
  - reflexivity.
  - exact example_kwargs_ok.
  - apply (bool_decide_unpack _). vm_compute. exact I.
  - intros x Hx. apply (bool_decide_unpack _).
    repeat (apply elem_of_cons in Hx as [-> | Hx]; [vm_compute; exact I |]).
    now apply elem_of_nil in Hx.
Defined.

(** X16: removing a concatenation of key lists is removing the first
    list and then, if that returned, the second; an error in the first
    part leaves the second part undone. *)
Theorem remove_params_app (kwargs : loc) (ps1 ps2 : list string) (h : heap) :
  remove_params kwargs (ps1 ++ ps2) h
  = match remove_params kwargs ps1 h with
    | (h', Ok _) => remove_params kwargs ps2 h'
    | (h', Raise e) => (h', Raise e)
    end.
Proof.
  rewrite !RemoveFacts.remove_params_unfold, RemoveMore.list_comp_pop_app.
  destruct (list_comp (dict_pop kwargs) ps1 h) as [h1 [vs1 | e]]; [| reflexivity].
  rewrite RemoveFacts.remove_params_unfold.
  now destruct (list_comp (dict_pop kwargs) ps2 h1) as [h2 [vs2 | e]].
Qed.

(** ** Logger set-up: first configuration, failures and frame *)

Module LoggingMore.
Import Logging LoggingFacts.

Lemma getLogger_info_calls (name : option string) (σ : state) :
  info_calls (getLogger name σ).1 = info_calls σ.
Proof.
  unfold getLogger. destruct name as [n|]; [| reflexivity].
  destruct (String.eqb n "" || String.eqb n "root"); [reflexivity |].
  now destruct (loggerDict σ !! n).
Qed.

Lemma info_calls_store (σ : state) (r : logger_ref) (lg : Logger) :
  info_calls (store σ r lg) = info_calls σ.
Proof. now destruct r. Qed.

Lemma handlers_named_nil (name : option string) (lg : Logger) :
  handlers_named name lg = [] ->
  existsb (fun h => name_eqb (handler_name h) name) (handlers lg) = false.
Proof. apply existsb_handlers_named. Qed.

(** No level name starts with ["Level "]: what [getLevelName] makes of an
    unknown name never passes the level check. *)
Lemma unknown_level_rejected (s : string) :
  nameToLevel s = None ->
  checkLevel (getLevelName (StrLevel s)) = Raise ValueError.
Proof.
  intros Hs. unfold getLevelName. rewrite Hs. reflexivity.
Qed.

Section WithFormatter.

Variable format_valid : string -> bool.

Lemma first_configuration (env name : option string) (lvl : option Z)
    (fmt : option string) (σ : state) (n : Z) :
  handlers_named name (deref σ (logger_of name)) = [] ->
  checkLevel (resolve_level env lvl) = Ok n ->
  format_valid (format_or_default fmt) = true ->
  exists σ',
    setup_logger format_valid env name lvl fmt σ = (σ', Ok (logger_of name))
    /\ deref σ' (logger_of name)
       = {| level := n;
            handlers := handlers (deref σ (logger_of name))
                          ++ [handler_for name n fmt] |}
    /\ forall r, r <> logger_of name -> deref σ' r = deref σ r.
Proof.
  intros Hnone Hlv Hfmt.
  pose proof (setup_logger_cases format_valid env name lvl fmt σ) as Hc.
  cbv zeta in Hc.
  rewrite (handlers_named_nil _ _ Hnone), Hlv, Hfmt in Hc.
  destruct Hc as [msg Hc]. eexists. split; [exact Hc |].
  split.
  - rewrite deref_info. unfold addHandler. rewrite deref_store.
    destruct (decide (logger_of name = logger_of name)); [| congruence].
    unfold setLevel. rewrite deref_store.
    destruct (decide (logger_of name = logger_of name)); [| congruence].
    simpl. now rewrite getLogger_deref.
  - intros r Hne. rewrite deref_info. unfold addHandler. rewrite deref_store.
    destruct (decide (logger_of name = r)); [congruence |].
    unfold setLevel. rewrite deref_store.
    destruct (decide (logger_of name = r)); [congruence |].
    apply getLogger_deref.
Qed.

End WithFormatter.

End LoggingMore.

(** X17: the first configuration of a logger (no handler with the name
    yet, a level that passes the check, an accepted format) returns the
    logger, sets its level to the resolved level and appends one handler
    with the name, the same level and the given format, the default
    format standing in for a missing or empty one; other loggers stay. *)
Theorem setup_logger_first_configuration (format_valid : string -> bool)
    (env name : option string) (lvl : option Z) (fmt : option string)
    (σ : Logging.state) (n : Z) :
  Logging.handlers_named name (Logging.deref σ (Logging.logger_of name)) = [] ->
  Logging.checkLevel (Logging.resolve_level env lvl) = Ok n ->
  format_valid (Logging.format_or_default fmt) = true ->
  exists σ',
    Logging.setup_logger format_valid env name lvl fmt σ
    = (σ', Ok (Logging.logger_of name))
    /\ Logging.deref σ' (Logging.logger_of name)
       = {| Logging.level := n;
            Logging.handlers :=
              Logging.handlers (Logging.deref σ (Logging.logger_of name))
                ++ [handler_for name n fmt] |}
    /\ Logging.format_or_default None = Logging.default_format
    /\ Logging.format_or_default (Some "") = Logging.default_format.
Proof.
  intros Hnone Hlv Hfmt.
  destruct (LoggingMore.first_configuration format_valid env name lvl fmt σ n
              Hnone Hlv Hfmt) as (σ' & Hrun & Hlg & _).
  exists σ'. repeat split; assumption.
Qed.

Lemma setup_logger_first_configuration_witness :
  exists σ',
    Logging.setup_logger (fun _ => true) None (Some "app") None None Logging.initial
    = (σ', Ok (Logging.Named "app"))
    /\ Logging.deref σ' (Logging.Named "app")
       = {| Logging.level := 20;
            Logging.handlers := [handler_for (Some "app") 20 None] |}.
Proof.
  destruct (setup_logger_first_configuration (fun _ => true) None (Some "app") None
              None Logging.initial 20) as (σ' & Hrun & Hlg & _).
  - reflexivity.
  - reflexivity.
  - reflexivity.
  - exists σ'. split; [exact Hrun | exact Hlg].
Defined.

(** X18: a call for one name leaves every other logger as it is, whether
    the call returns or raises. *)
Theorem setup_logger_other_loggers (format_valid : string -> bool)
    (env name : option string) (lvl : option Z) (fmt : option string)
    (σ : Logging.state) (r : Logging.logger_ref) :
  r <> Logging.logger_of name ->
  Logging.deref (Logging.setup_logger format_valid env name lvl fmt σ).1 r
  = Logging.deref σ r.
Proof.
  intros Hne.
  pose proof (LoggingFacts.setup_logger_cases format_valid env name lvl fmt σ) as Hc.
  cbv zeta in Hc.
  pose proof (LoggingFacts.getLogger_deref name σ r) as H0.
  destruct (existsb _ (Logging.handlers (Logging.deref σ (Logging.logger_of name)))).
  - rewrite Hc. simpl. now rewrite LoggingFacts.deref_info.
  - destruct (Logging.checkLevel (Logging.resolve_level env lvl)) as [n | e].
    + destruct (format_valid (Logging.format_or_default fmt)).
      * destruct Hc as [msg ->]. simpl. rewrite LoggingFacts.deref_info.
        unfold Logging.addHandler, Logging.setLevel.
        rewrite !LoggingFacts.deref_store.
        destruct (decide (Logging.logger_of name = r)); [congruence | exact H0].
      * rewrite Hc. simpl. unfold Logging.setLevel.
        rewrite LoggingFacts.deref_store.
        destruct (decide (Logging.logger_of name = r)); [congruence | exact H0].
    + rewrite Hc. exact H0.
Qed.

Lemma setup_logger_other_loggers_witness :
  Logging.deref
    (Logging.setup_logger (fun _ => true) None (Some "app") None None
       Logging.initial).1 Logging.Root
  = Logging.deref Logging.initial Logging.Root.
Proof.
  apply (setup_logger_other_loggers (fun _ => true) None (Some "app") None None
           Logging.initial Logging.Root).
  discriminate.
Defined.

(** X19: no call removes or reorders handlers: the handlers of the logger
    afterwards are the handlers before, followed by at most one new
    handler, which carries the name. *)
Theorem setup_logger_keeps_handlers (format_valid : string -> bool)
    (env name : option string) (lvl : option Z) (fmt : option string)
    (σ : Logging.state) :
  exists extra : list Logging.Handler,
    Logging.handlers
      (Logging.deref (Logging.setup_logger format_valid env name lvl fmt σ).1
         (Logging.logger_of name))
    = Logging.handlers (Logging.deref σ (Logging.logger_of name)) ++ extra
    /\ (extra = [] \/ exists h, extra = [h] /\ Logging.handler_name h = name).
Proof.
  pose proof (LoggingFacts.setup_logger_cases format_valid env name lvl fmt σ) as Hc.
  cbv zeta in Hc.
  pose proof (LoggingFacts.getLogger_deref name σ (Logging.logger_of name)) as H0.
  destruct (existsb _ (Logging.handlers (Logging.deref σ (Logging.logger_of name)))).
  - rewrite Hc. simpl. exists [].
    rewrite LoggingFacts.deref_info, H0, app_nil_r. auto.
  - destruct (Logging.checkLevel (Logging.resolve_level env lvl)) as [n | e].
    + destruct (format_valid (Logging.format_or_default fmt)).
      * destruct Hc as [msg ->]. simpl. eexists [_].
        rewrite LoggingFacts.deref_info.
        unfold Logging.addHandler, Logging.setLevel.
        rewrite !LoggingFacts.deref_store.
        destruct (decide (Logging.logger_of name = Logging.logger_of name));
          [| congruence].
        simpl. rewrite H0. split; [reflexivity |]. right. eauto.
      * rewrite Hc. simpl. exists []. unfold Logging.setLevel.
        rewrite LoggingFacts.deref_store.
        destruct (decide (Logging.logger_of name = Logging.logger_of name));
          [| congruence].
        simpl. rewrite H0, app_nil_r. auto.
    + rewrite Hc. simpl. exists []. rewrite H0, app_nil_r. auto.
Qed.

(** X20: without an explicit level, a [LOGLEVEL] (or, when it is unset,
    the default) that is not a known level name makes the configuration of
    a logger raise [ValueError]; no logger is changed and nothing is
    logged. *)
Theorem setup_logger_unknown_level (format_valid : string -> bool)
    (env name : option string) (fmt : option string) (σ : Logging.state) :
  Logging.handlers_named name (Logging.deref σ (Logging.logger_of name)) = [] ->
  Logging.nameToLevel (default Logging.DEFAULT_LOGLEVEL env) = None ->
  exists σ',
    Logging.setup_logger format_valid env name None fmt σ = (σ', Raise ValueError)
    /\ (forall r, Logging.deref σ' r = Logging.deref σ r)
    /\ Logging.info_calls σ' = Logging.info_calls σ.
Proof.
  intros Hnone Hunknown.
  pose proof (LoggingFacts.setup_logger_cases format_valid env name None fmt σ) as Hc.
  cbv zeta in Hc.
  rewrite (LoggingMore.handlers_named_nil _ _ Hnone) in Hc.
  unfold Logging.resolve_level in Hc.
  rewrite (LoggingMore.unknown_level_rejected _ Hunknown) in Hc.
  eexists. split; [exact Hc |]. split.
  - intros r. apply LoggingFacts.getLogger_deref.
  - apply LoggingMore.getLogger_info_calls.
Qed.

Lemma setup_logger_unknown_level_witness :
  exists σ',
    Logging.setup_logger (fun _ => true) (Some "debug") (Some "app") None None
      Logging.initial = (σ', Raise ValueError)
    /\ (forall r, Logging.deref σ' r = Logging.deref Logging.initial r)
    /\ Logging.info_calls σ' = Logging.info_calls Logging.initial.
Proof.
  apply (setup_logger_unknown_level (fun _ => true) (Some "debug") (Some "app") None
           Logging.initial); reflexivity.
Defined.

(** X21: a format string the formatter rejects makes the configuration
    raise [ValueError] after the logger's level has been set: the level is
    changed, no handler is attached and nothing is logged. *)
Theorem setup_logger_rejected_format (format_valid : string -> bool)
    (env name : option string) (lvl : option Z) (fmt : option string)
    (σ : Logging.state) (n : Z) :
  Logging.handlers_named name (Logging.deref σ (Logging.logger_of name)) = [] ->
  Logging.checkLevel (Logging.resolve_level env lvl) = Ok n ->
  format_valid (Logging.format_or_default fmt) = false ->
  exists σ',
    Logging.setup_logger format_valid env name lvl fmt σ = (σ', Raise ValueError)
    /\ Logging.deref σ' (Logging.logger_of name)
       = {| Logging.level := n;
            Logging.handlers :=
              Logging.handlers (Logging.deref σ (Logging.logger_of name)) |}
    /\ Logging.info_calls σ' = Logging.info_calls σ.
Proof.
  intros Hnone Hlv Hfmt.
  pose proof (LoggingFacts.setup_logger_cases format_valid env name lvl fmt σ) as Hc.
  cbv zeta in Hc.
  rewrite (LoggingMore.handlers_named_nil _ _ Hnone), Hlv, Hfmt in Hc.
  eexists. split; [exact Hc |]. split.
  - unfold Logging.setLevel. rewrite LoggingFacts.deref_store.
    destruct (decide (Logging.logger_of name = Logging.logger_of name));
      [| congruence].
    now rewrite LoggingFacts.getLogger_deref.
  - unfold Logging.setLevel. rewrite LoggingMore.info_calls_store.
    apply LoggingMore.getLogger_info_calls.
Qed.

Lemma setup_logger_rejected_format_witness :
  exists σ',
    Logging.setup_logger (fun _ => false) None (Some "app") (Some 10%Z) (Some "plain")
      Logging.initial = (σ', Raise ValueError)
    /\ Logging.deref σ' (Logging.Named "app")
       = {| Logging.level := 10; Logging.handlers := [] |}
    /\ Logging.info_calls σ' = [].
Proof.
  apply (setup_logger_rejected_format (fun _ => false) None (Some "app") (Some 10%Z)
           (Some "plain") Logging.initial 10); reflexivity.
Defined.

(** X22: the guard looks at the handler's name tag, not at the logger:
    two different names that denote the same logger (such as no name and
    the empty name, both the root logger) each attach their own handler,
    so that logger ends up with both. *)
Theorem setup_logger_aliased_names (format_valid : string -> bool)
    (env1 env2 name1 name2 : option string) (lvl1 lvl2 : option Z)
    (fmt1 fmt2 : option string) (σ : Logging.state) (n1 n2 : Z) :
  name1 <> name2 ->
  Logging.logger_of name1 = Logging.logger_of name2 ->
  Logging.handlers_named name1 (Logging.deref σ (Logging.logger_of name1)) = [] ->
  Logging.handlers_named name2 (Logging.deref σ (Logging.logger_of name1)) = [] ->
  Logging.checkLevel (Logging.resolve_level env1 lvl1) = Ok n1 ->
  Logging.checkLevel (Logging.resolve_level env2 lvl2) = Ok n2 ->
  format_valid (Logging.format_or_default fmt1) = true ->
  format_valid (Logging.format_or_default fmt2) = true ->
  exists σ1 σ2,
    Logging.setup_logger format_valid env1 name1 lvl1 fmt1 σ
    = (σ1, Ok (Logging.logger_of name1))
    /\ Logging.setup_logger format_valid env2 name2 lvl2 fmt2 σ1
       = (σ2, Ok (Logging.logger_of name1))
    /\ Logging.deref σ2 (Logging.logger_of name1)
       = {| Logging.level := n2;
            Logging.handlers :=
              Logging.handlers (Logging.deref σ (Logging.logger_of name1))
                ++ [handler_for name1 n1 fmt1; handler_for name2 n2 fmt2] |}.
Proof.
  intros Hne Halias Hnone1 Hnone2 Hlv1 Hlv2 Hfmt1 Hfmt2.
  destruct (LoggingMore.first_configuration format_valid env1 name1 lvl1 fmt1 σ n1
              Hnone1 Hlv1 Hfmt1) as (σ1 & Hrun1 & Hlg1 & _).
  destruct (LoggingMore.first_configuration format_valid env2 name2 lvl2 fmt2 σ1 n2)
    as (σ2 & Hrun2 & Hlg2 & _); try assumption.
  { rewrite <- Halias, Hlg1. unfold Logging.handlers_named in *. simpl.
    rewrite List.filter_app, Hnone2. simpl.
    destruct (Logging.name_eqb name1 name2) eqn:E; [| reflexivity].
    apply LoggingFacts.name_eqb_eq in E. contradiction. }
  exists σ1, σ2. split; [exact Hrun1 |].
  rewrite Halias. split; [exact Hrun2 |].
  rewrite Hlg2. rewrite <- Halias, Hlg1. simpl.
  now rewrite <- app_assoc.
Qed.

Lemma setup_logger_aliased_names_witness :
  exists σ1 σ2,
    Logging.setup_logger (fun _ => true) None None None None Logging.initial
    = (σ1, Ok Logging.Root)
    /\ Logging.setup_logger (fun _ => true) None (Some "") None None σ1
       = (σ2, Ok Logging.Root)
    /\ Logging.deref σ2 Logging.Root
       = {| Logging.level := 20;
            Logging.handlers :=
              [handler_for None 20 None; handler_for (Some "") 20 None] |}.
Proof.
  apply (setup_logger_aliased_names (fun _ => true) None None None (Some "") None None
           None None Logging.initial 20 20); try reflexivity.
  discriminate.
Defined.

